(** * Crystal lattice kernel: lattice generation and Miller-plane mathematics

    A shallow embedding of the geometry kernel of the crystal lattice
    simulator: [millerIndices.js] (vector helpers, [computePlane],
    [clipPlaneToBox]) and [latticeGenerator.js] ([generateLattice],
    [generateBonds], [generateUnitCell]).

    Numbers.  Two models of a JavaScript number are used.  The first,
    [num], is a real number or one of the three special values the code
    produces and tests for ([Infinity], [-Infinity], [NaN]): arithmetic on
    finite values is exact, the special values follow the IEEE rules the
    code relies on ([1/0 = Infinity], [0 * Infinity = NaN], every
    comparison with [NaN] is false), and the two zeros are identified.  It
    carries the properties of the control flow, of the loops and of the
    data they build, which do not depend on rounding.  The second, [f64],
    is the binary64 number itself, with its signed zeros, its infinities,
    its NaN and its operations rounded to nearest; module [B64] embeds the
    numeric functions over it, and the properties of the values they
    compute, where rounding, overflow and underflow decide, are stated
    there.

    Data.  A three-element array is a record [vec3]; the [vectors] array of
    a structure is a record of three of them; the other arrays are lists,
    and a loop that pushes to an array is a left fold that appends.  The
    [repeat] count is a natural number.  A [null] or omitted lattice
    constant is [None].  The [seen] set of keys is a list, and a key is the
    triple of integers its text is made of. *)

From Stdlib Require Import String Reals Lra Lia ZArith List Bool Arith SpecFloat.
Import ListNotations.
Open Scope R_scope.

(** ** JavaScript numbers *)

Inductive num : Type :=
| Fin (r : R)
| PInf
| NInf
| NaN.

Definition Rleb (x y : R) : bool := if Rle_dec x y then true else false.
Definition Rltb (x y : R) : bool := if Rlt_dec x y then true else false.
Definition Reqb (x y : R) : bool := if Req_dec_T x y then true else false.

(** Sign of a finite factor applied to an infinity ([0 * Infinity] is NaN). *)
Definition inf_times (pos : bool) (x : R) : num :=
  if Reqb x 0 then NaN
  else if Rltb 0 x then (if pos then PInf else NInf)
  else (if pos then NInf else PInf).

Definition nneg (a : num) : num :=
  match a with
  | Fin x => Fin (- x)
  | PInf => NInf
  | NInf => PInf
  | NaN => NaN
  end.

Definition nadd (a b : num) : num :=
  match a, b with
  | NaN, _ | _, NaN => NaN
  | Fin x, Fin y => Fin (x + y)
  | PInf, NInf | NInf, PInf => NaN
  | PInf, _ | _, PInf => PInf
  | NInf, _ | _, NInf => NInf
  end.

Definition nsub (a b : num) : num := nadd a (nneg b).

Definition nmul (a b : num) : num :=
  match a, b with
  | NaN, _ | _, NaN => NaN
  | Fin x, Fin y => Fin (x * y)
  | Fin x, PInf | PInf, Fin x => inf_times true x
  | Fin x, NInf | NInf, Fin x => inf_times false x
  | PInf, PInf | NInf, NInf => PInf
  | PInf, NInf | NInf, PInf => NInf
  end.

Definition ndiv (a b : num) : num :=
  match a, b with
  | NaN, _ | _, NaN => NaN
  | Fin x, Fin y =>
      if Reqb y 0 then
        (if Reqb x 0 then NaN else if Rltb 0 x then PInf else NInf)
      else Fin (x / y)
  | Fin _, PInf | Fin _, NInf => Fin 0
  | PInf, Fin y => if Rltb y 0 then NInf else PInf
  | NInf, Fin y => if Rltb y 0 then PInf else NInf
  | _, _ => NaN
  end.

(** [Math.sqrt] *)
Definition nsqrt (a : num) : num :=
  match a with
  | Fin x => if Rltb x 0 then NaN else Fin (sqrt x)
  | PInf => PInf
  | NInf => NaN
  | NaN => NaN
  end.

(** [Math.abs] *)
Definition nabs (a : num) : num :=
  match a with
  | Fin x => Fin (Rabs x)
  | PInf | NInf => PInf
  | NaN => NaN
  end.

(** [a <= b], [a < b], [a > b] *)
Definition nleb (a b : num) : bool :=
  match a, b with
  | NaN, _ | _, NaN => false
  | Fin x, Fin y => Rleb x y
  | NInf, _ => true
  | _, PInf => true
  | _, _ => false
  end.

Definition nltb (a b : num) : bool :=
  match a, b with
  | NaN, _ | _, NaN => false
  | Fin x, Fin y => Rltb x y
  | PInf, _ => false
  | _, NInf => false
  | _, _ => true
  end.

Definition ngtb (a b : num) : bool := nltb b a.

(** Truthiness of a number: [0] and [NaN] are falsy. *)
Definition truthy (a : num) : bool :=
  match a with
  | Fin x => negb (Reqb x 0)
  | NaN => false
  | _ => true
  end.

Declare Scope num_scope.
Delimit Scope num_scope with num.
Bind Scope num_scope with num.
Infix "+" := nadd : num_scope.
Infix "-" := nsub : num_scope.
Infix "*" := nmul : num_scope.
Infix "/" := ndiv : num_scope.

Coercion Fin : R >-> num.

(** ** millerIndices.js: vector helpers *)

(** A three-element array [[x, y, z]]. *)
Record vec3 : Type := V3 { v0 : num; v1 : num; v2 : num }.

Definition cross (a b : vec3) : vec3 :=
  V3 (v1 a * v2 b - v2 a * v1 b)
     (v2 a * v0 b - v0 a * v2 b)
     (v0 a * v1 b - v1 a * v0 b).

Definition dot (a b : vec3) : num :=
  (v0 a * v0 b + v1 a * v1 b + v2 a * v2 b)%num.

Definition scale (v : vec3) (s : num) : vec3 :=
  V3 (v0 v * s) (v1 v * s) (v2 v * s).

Definition add (a b : vec3) : vec3 :=
  V3 (v0 a + v0 b) (v1 a + v1 b) (v2 a + v2 b).

Definition magnitude (v : vec3) : num :=
  nsqrt (v0 v * v0 v + v1 v * v1 v + v2 v * v2 v).

Definition normalize (v : vec3) : vec3 :=
  let m := magnitude v in
  if ngtb m (Fin 0) then V3 (v0 v / m) (v1 v / m) (v2 v / m)
  else V3 (Fin 0) (Fin 0) (Fin 0).

(** An element of the [atoms] array. *)
Record Atom : Type := MkAtom { position : vec3; isEdge : bool }.

(** Stands for an array access out of range; no loop of the kernel makes
    one. *)
Definition noVec : vec3 := V3 NaN NaN NaN.
Definition noAtom : Atom := MkAtom noVec false.

(** ** millerIndices.js: computePlane *)

(** The [vectors] array of a structure: three lattice vectors. *)
Record lattice_vectors : Type := Vectors { a1v : vec3; a2v : vec3; a3v : vec3 }.

Record plane_result : Type :=
  PlaneResult { planeNormal : vec3; dSpacing : num; G : vec3 }.

Definition computePlane (h k l : num) (vectors : lattice_vectors) (a : num)
  : plane_result :=
  let a1 := scale (a1v vectors) a in
  let a2 := scale (a2v vectors) a in
  let a3 := scale (a3v vectors) a in
  let a2xa3 := cross a2 a3 in
  let vol := dot a1 a2xa3 in
  let b1 := scale (cross a2 a3) (Fin 1 / vol) in
  let b2 := scale (cross a3 a1) (Fin 1 / vol) in
  let b3 := scale (cross a1 a2) (Fin 1 / vol) in
  let G := add (add (scale b1 h) (scale b2 k)) (scale b3 l) in
  let Gmag := magnitude G in
  let dSpacing := if ngtb Gmag (Fin 0) then (Fin 1 / Gmag)%num else PInf in
  let planeNormal := normalize G in
  PlaneResult planeNormal dSpacing G.

(** [distanceToPlane(point, planeNormal, offset)] *)
Definition distanceToPlane (point planeNormal : vec3) (offset : num) : num :=
  (dot point planeNormal - offset)%num.

(** [atomsOnPlane(atoms, planeNormal, offset, tolerance)]: the indices added
    to the result set, in insertion order. *)
Definition atomsOnPlane (atoms : list Atom) (planeNormal : vec3)
    (offset tolerance : num) : list nat :=
  fold_left
    (fun onPlane i =>
       let d := nabs (distanceToPlane (position (nth i atoms noAtom))
                        planeNormal offset) in
       if nleb d tolerance then onPlane ++ [i] else onPlane)
    (seq 0 (length atoms)) [].

(** ** millerIndices.js: clipPlaneToBox *)

Definition intersectEdgePlane (a b normal : vec3) (d : num) : vec3 :=
  let da := (dot a normal - d)%num in
  let db := (dot b normal - d)%num in
  let t := (da / (da - db))%num in
  V3 (v0 a + t * (v0 b - v0 a))
     (v1 a + t * (v1 b - v1 a))
     (v2 a + t * (v2 b - v2 a)).

(** One iteration of the loop of [clipPolygonByPlane]: [output] is the array
    built so far, [i] the loop index. *)
Definition clipIter (vertices : list vec3) (normal : vec3) (d : num)
    (output : list vec3) (i : nat) : list vec3 :=
  let current := nth i vertices noVec in
  let next := nth ((i + 1) mod length vertices) vertices noVec in
  let dc := dot current normal in
  let dn := dot next normal in
  let currentInside := nleb dc (d + Fin 0.001) in
  let nextInside := nleb dn (d + Fin 0.001) in
  if currentInside then
    let output := output ++ [current] in
    if negb nextInside
    then output ++ [intersectEdgePlane current next normal d]
    else output
  else if nextInside
  then output ++ [intersectEdgePlane current next normal d]
  else output.

Definition clipPolygonByPlane (vertices : list vec3) (normal : vec3) (d : num)
  : list vec3 :=
  if (length vertices =? 0)%nat then []
  else fold_left (clipIter vertices normal d) (seq 0 (length vertices)) [].

Record clip_plane : Type := ClipPlane { cp_normal : vec3; cp_d : num }.

Record clipped_polygon : Type :=
  Clipped { vertices : list vec3; edgeLoop : list vec3 }.

Definition clipPlanes (bounds : num) : list clip_plane :=
  [ ClipPlane (V3 (Fin 1) (Fin 0) (Fin 0)) bounds;
    ClipPlane (V3 (Fin (-1)) (Fin 0) (Fin 0)) bounds;
    ClipPlane (V3 (Fin 0) (Fin 1) (Fin 0)) bounds;
    ClipPlane (V3 (Fin 0) (Fin (-1)) (Fin 0)) bounds;
    ClipPlane (V3 (Fin 0) (Fin 0) (Fin 1)) bounds;
    ClipPlane (V3 (Fin 0) (Fin 0) (Fin (-1))) bounds ].

(** The [for (const clip of clipPlanes)] loop with its early return. *)
Fixpoint clipLoop (polygon : list vec3) (clips : list clip_plane)
  : clipped_polygon :=
  match clips with
  | [] => Clipped polygon polygon
  | clip :: rest =>
      let polygon := clipPolygonByPlane polygon (cp_normal clip) (cp_d clip) in
      if (length polygon <? 3)%nat then Clipped [] []
      else clipLoop polygon rest
  end.

Definition tangents (planeNormal : vec3) : vec3 * vec3 :=
  let tangent1 :=
    if nltb (nabs (v0 planeNormal)) (Fin 0.9)
    then normalize (cross planeNormal (V3 (Fin 1) (Fin 0) (Fin 0)))
    else normalize (cross planeNormal (V3 (Fin 0) (Fin 1) (Fin 0))) in
  let tangent2 := normalize (cross planeNormal tangent1) in
  (tangent1, tangent2).

Definition initialQuad (planeNormal : vec3) (offset bounds : num) : list vec3 :=
  let d := offset in
  let '(tangent1, tangent2) := tangents planeNormal in
  let size := (bounds * Fin 3)%num in
  let center := scale planeNormal d in
  [ add (add center (scale tangent1 (nneg size))) (scale tangent2 (nneg size));
    add (add center (scale tangent1 size)) (scale tangent2 (nneg size));
    add (add center (scale tangent1 size)) (scale tangent2 size);
    add (add center (scale tangent1 (nneg size))) (scale tangent2 size) ].

Definition clipPlaneToBox (planeNormal : vec3) (offset bounds : num)
  : clipped_polygon :=
  let quad := initialQuad planeNormal offset bounds in
  clipLoop quad (clipPlanes bounds).

(** What the scene does with the returned [edgeLoop] before drawing it:
    [edgePoints.push(edgePoints[0].clone())]. *)
Definition closeLoop (edgePoints : list vec3) : list vec3 :=
  edgePoints ++ [nth 0 edgePoints noVec].

(** ** latticeGenerator.js *)

Record Structure : Type :=
  MkStructure { id : string; basis : list vec3;
                vectors : lattice_vectors; defaultA : num }.

Record Bond : Type := MkBond { start : vec3; end_ : vec3 }.

(** [latticeConstant || structure.defaultA]; [None] is [null] (also the
    default of an omitted argument). *)
Definition orDefaultA (latticeConstant : option num) (structure : Structure)
  : num :=
  match latticeConstant with
  | Some x => if truthy x then x else defaultA structure
  | None => defaultA structure
  end.

(** [Math.round] followed by the conversion to text in the template string
    of the key: a finite number prints as the integer [floor (x + 1/2)]
    (a rounded [-0] prints as [0]). *)
Inductive rounded : Type :=
| RInt (z : Z)
| RPInf
| RNInf
| RNaN.

Definition mathRound (a : num) : rounded :=
  match a with
  | Fin x => RInt (Zfloor (x + / 2))
  | PInf => RPInf
  | NInf => RNInf
  | NaN => RNaN
  end.

Definition rounded_eqb (a b : rounded) : bool :=
  match a, b with
  | RInt x, RInt y => Z.eqb x y
  | RPInf, RPInf | RNInf, RNInf | RNaN, RNaN => true
  | _, _ => false
  end.

(** The three comma-separated fields of a key. *)
Definition key : Type := (rounded * rounded * rounded)%type.

Definition key_eqb (a b : key) : bool :=
  let '(a0, a1, a2) := a in
  let '(b0, b1, b2) := b in
  rounded_eqb a0 b0 && rounded_eqb a1 b1 && rounded_eqb a2 b2.

Definition tolerance : num := Fin 0.01.

Definition keyOf (p : vec3) : key :=
  (mathRound (v0 p / tolerance), mathRound (v1 p / tolerance),
   mathRound (v2 p / tolerance)).

(** [seen.has(key)] *)
Definition has (seen : list key) (k : key) : bool := existsb (key_eqb k) seen.

(** The position computed in the innermost loop body for cell [(i, j, k)]
    and basis entry [b]. *)
Definition cellPosition (vectors : lattice_vectors) (a offset : num)
    (i j k : nat) (b : vec3) : vec3 :=
  let fracX := (v0 b + Fin (INR i))%num in
  let fracY := (v1 b + Fin (INR j))%num in
  let fracZ := (v2 b + Fin (INR k))%num in
  let x := (fracX * v0 (a1v vectors) * a + fracY * v0 (a2v vectors) * a
            + fracZ * v0 (a3v vectors) * a - offset)%num in
  let y := (fracX * v1 (a1v vectors) * a + fracY * v1 (a2v vectors) * a
            + fracZ * v1 (a3v vectors) * a - offset)%num in
  let z := (fracX * v2 (a1v vectors) * a + fracY * v2 (a2v vectors) * a
            + fracZ * v2 (a3v vectors) * a - offset)%num in
  V3 x y z.

Definition edgeFlag (repeat i j k : nat) : bool :=
  (i =? 0)%nat || (j =? 0)%nat || (k =? 0)%nat ||
  (i =? repeat - 1)%nat || (j =? repeat - 1)%nat || (k =? repeat - 1)%nat.

(** The loop state: the [atoms] array and the [seen] set. *)
Definition lattice_state : Type := (list Atom * list key)%type.

(** Body of [for (const b of basis)]. *)
Definition latticeBody (vectors : lattice_vectors) (a offset : num)
    (repeat i j k : nat) (st : lattice_state) (b : vec3) : lattice_state :=
  let '(atoms, seen) := st in
  let p := cellPosition vectors a offset i j k b in
  let key := keyOf p in
  if negb (has seen key)
  then (atoms ++ [MkAtom p (edgeFlag repeat i j k)], seen ++ [key])
  else (atoms, seen).

(** [((repeat - 1) * a) / 2] *)
Definition latticeOffset (repeat : nat) (a : num) : num :=
  (Fin (INR repeat - 1) * a / Fin 2)%num.

Definition generateLatticeState (structure : Structure) (repeat : nat)
    (latticeConstant : option num) : lattice_state :=
  let a := orDefaultA latticeConstant structure in
  let offset := latticeOffset repeat a in
  fold_left (fun st i =>
    fold_left (fun st j =>
      fold_left (fun st k =>
        fold_left (latticeBody (vectors structure) a offset repeat i j k)
                  (basis structure) st)
        (seq 0 repeat) st)
      (seq 0 repeat) st)
    (seq 0 repeat) ([], []).

Definition generateLattice (structure : Structure) (repeat : nat)
    (latticeConstant : option num) : list Atom :=
  fst (generateLatticeState structure repeat latticeConstant).

(** The [switch (structure.id)] of [generateBonds]. *)
Definition maxBondLengthOf (id : string) (a : num) : num :=
  if String.eqb id "sc" then (a * Fin 1.05)%num
  else if String.eqb id "bcc" then (a * nsqrt (Fin 3) / Fin 2 * Fin 1.05)%num
  else if String.eqb id "fcc" then (a * nsqrt (Fin 2) / Fin 2 * Fin 1.05)%num
  else if String.eqb id "diamond"
       then (a * nsqrt (Fin 3) / Fin 4 * Fin 1.05)%num
  else if String.eqb id "hcp" then (a * Fin 1.05)%num
  else (a * Fin 1.05)%num.

(** [dist] of the inner loop body. *)
Definition distance (p q : vec3) : num :=
  let dx := (v0 p - v0 q)%num in
  let dy := (v1 p - v1 q)%num in
  let dz := (v2 p - v2 q)%num in
  nsqrt (dx * dx + dy * dy + dz * dz).

Definition bondsWithin (atoms : list Atom) (maxBondLength : num) : list Bond :=
  let at_ i := position (nth i atoms noAtom) in
  fold_left (fun bonds i =>
    fold_left (fun bonds j =>
      let dist := distance (at_ i) (at_ j) in
      if nleb dist maxBondLength && ngtb dist (Fin 0.01)
      then bonds ++ [MkBond (at_ i) (at_ j)]
      else bonds)
      (seq (i + 1) (length atoms - (i + 1))) bonds)
    (seq 0 (length atoms)) [].

Definition generateBonds (atoms : list Atom) (structure : Structure)
    (latticeConstant : option num) : list Bond :=
  let a := orDefaultA latticeConstant structure in
  let maxBondLength := maxBondLengthOf (id structure) a in
  bondsWithin atoms maxBondLength.

Record unit_cell : Type :=
  UnitCell { corners : list vec3; edges : list (nat * nat) }.

Definition generateUnitCell (structure : Structure)
    (latticeConstant : option num) : unit_cell :=
  let a := orDefaultA latticeConstant structure in
  let scaled vec := V3 (v0 vec * a) (v1 vec * a) (v2 vec * a) in
  let w0 := scaled (a1v (vectors structure)) in
  let w1 := scaled (a2v (vectors structure)) in
  let w2 := scaled (a3v (vectors structure)) in
  let origin := V3 (Fin 0) (Fin 0) (Fin 0) in
  UnitCell
    [ origin; w0; w1; w2;
      V3 (v0 w0 + v0 w1) (v1 w0 + v1 w1) (v2 w0 + v2 w1);
      V3 (v0 w0 + v0 w2) (v1 w0 + v1 w2) (v2 w0 + v2 w2);
      V3 (v0 w1 + v0 w2) (v1 w1 + v1 w2) (v2 w1 + v2 w2);
      V3 (v0 w0 + v0 w1 + v0 w2) (v1 w0 + v1 w1 + v1 w2)
         (v2 w0 + v2 w1 + v2 w2) ]
    [ (0, 1); (0, 2); (0, 3); (1, 4); (1, 5); (2, 4); (2, 6);
      (3, 5); (3, 6); (4, 7); (5, 7); (6, 7) ]%nat.

(** ** lattices.js: the structure catalogue *)

Definition cubicVectors : lattice_vectors :=
  Vectors (V3 1 0 0) (V3 0 1 0) (V3 0 0 1).

Definition sc : Structure :=
  MkStructure "sc" [V3 0 0 0] cubicVectors 3.34.

Definition bcc : Structure :=
  MkStructure "bcc" [V3 0 0 0; V3 0.5 0.5 0.5] cubicVectors 2.87.

Definition fcc : Structure :=
  MkStructure "fcc"
    [V3 0 0 0; V3 0.5 0.5 0; V3 0.5 0 0.5; V3 0 0.5 0.5]
    cubicVectors 3.61.

Definition diamond : Structure :=
  MkStructure "diamond"
    [V3 0 0 0; V3 0.5 0.5 0; V3 0.5 0 0.5; V3 0 0.5 0.5;
     V3 0.25 0.25 0.25; V3 0.75 0.75 0.25; V3 0.75 0.25 0.75;
     V3 0.25 0.75 0.75]
    cubicVectors 5.43.

Definition hcp : Structure :=
  MkStructure "hcp"
    [V3 0 0 0; V3 (Fin 1 / Fin 3) (Fin 2 / Fin 3) 0.5]
    (Vectors (V3 1 0 0)
             (V3 0.5 (nsqrt (Fin 3) / Fin 2) 0)
             (V3 0 0 (nsqrt (Fin 8 / Fin 3))))
    3.21.

Definition STRUCTURE_ORDER : list string :=
  ["sc"; "bcc"; "fcc"; "diamond"; "hcp"]%string.

(** [STRUCTURES[id]] *)
Definition STRUCTURES (i : string) : option Structure :=
  if String.eqb i "sc" then Some sc
  else if String.eqb i "bcc" then Some bcc
  else if String.eqb i "fcc" then Some fcc
  else if String.eqb i "diamond" then Some diamond
  else if String.eqb i "hcp" then Some hcp
  else None.

(** ** Reference definitions over the reals

    Used only to state properties: the textbook reciprocal-lattice
    construction, and real triples injected into arrays of finite numbers. *)










Definition zeroVec : vec3 := V3 (Fin 0) (Fin 0) (Fin 0).

(** A number that is not finite: [Infinity], [-Infinity] or [NaN]. *)
Definition non_finite (a : num) : Prop :=
  match a with Fin _ => False | _ => True end.

(** ** Definitions used in the statements *)

Definition falsy_constant (latticeConstant : option num) : Prop :=
  latticeConstant = None \/ latticeConstant = Some (Fin 0).

Definition posAt (atoms : list Atom) (i : nat) : vec3 :=
  position (nth i atoms noAtom).

(** The test of the inner loop body. *)
Definition bondTest (p q : vec3) (maxBondLength : num) : bool :=
  nleb (distance p q) maxBondLength && ngtb (distance p q) (Fin 0.01).

Definition twoAtoms : list Atom :=
  [MkAtom (V3 0 0 0) true; MkAtom (V3 1.02 0 0) true].

Definition unknownStructure : Structure :=
  MkStructure "tetragonal" [V3 0 0 0] cubicVectors 1.

(** ** Reference definitions for the lattice builder *)

(** The quantised key of an atom. *)
Definition atomKey (c : Atom) : key := keyOf (position c).

(** The atoms the four nested loops try to add, in loop order. *)
Definition candidateAtoms (vectors : lattice_vectors) (basis : list vec3)
    (a offset : num) (repeat : nat) : list Atom :=
  flat_map (fun i =>
    flat_map (fun j =>
      flat_map (fun k =>
        map (fun b => MkAtom (cellPosition vectors a offset i j k b)
                             (edgeFlag repeat i j k))
            basis)
        (seq 0 repeat))
      (seq 0 repeat))
    (seq 0 repeat).

Definition latticeCandidates (structure : Structure) (repeat : nat)
    (latticeConstant : option num) : list Atom :=
  let a := orDefaultA latticeConstant structure in
  candidateAtoms (vectors structure) (basis structure) a
    (latticeOffset repeat a) repeat.

(** Adding one candidate: the [if (!seen.has(key))] of the loop body. *)
Definition pushAtom (st : lattice_state) (c : Atom) : lattice_state :=
  let '(atoms, seen) := st in
  if negb (has seen (atomKey c))
  then (atoms ++ [c], seen ++ [atomKey c])
  else (atoms, seen).

(** A cubic cell a quarter of the lattice constant wide. *)
Definition quarterVectors : lattice_vectors :=
  Vectors (V3 0.25 0 0) (V3 0 0.25 0) (V3 0 0 0.25).

Definition quarterCubic : Structure :=
  MkStructure "quarter" [V3 0 0 0] quarterVectors 0.012.

(** The key component of cell index [i] of [quarterCubic] at [repeat = 2]. *)
Definition quarterKey2 (i : nat) : rounded := RInt (Z.of_nat i - 1).

(** The loop invariant: [seen] holds exactly the keys of [atoms], once each. *)
Definition lattice_inv (st : lattice_state) : Prop :=
  snd st = map atomKey (fst st) /\ NoDup (snd st).

(** ** Reference definitions for the plane clipper *)

(** [dc <= d + 0.001]: the vertex is kept by the clip plane. *)
Definition inside (v normal : vec3) (d : num) : bool :=
  nleb (dot v normal) (d + Fin 0.001).

(** What one loop iteration of [clipPolygonByPlane] pushes for the edge from
    [current] to [next]. *)
Definition clipEdge (current next normal : vec3) (d : num) : list vec3 :=
  if inside current normal d then
    current :: (if negb (inside next normal d)
                then [intersectEdgePlane current next normal d] else [])
  else if inside next normal d
  then [intersectEdgePlane current next normal d]
  else [].

(** The square of half-extent 5 in the plane [z = 0]. *)
Definition square5 : list vec3 :=
  [V3 (-5) 5 0; V3 (-5) (-5) 0; V3 5 (-5) 0; V3 5 5 0].

(** ** Scene.jsx and Sidebar.jsx: the callers of the kernel *)

(** [Math.max(a, b)] and [Math.min(a, b)]: NaN as soon as an argument is
    NaN. *)
Definition nmax (a b : num) : num :=
  match a, b with
  | NaN, _ | _, NaN => NaN
  | _, _ => if nleb a b then b else a
  end.

Definition nmin (a b : num) : num :=
  match a, b with
  | NaN, _ | _, NaN => NaN
  | _, _ => if nleb a b then a else b
  end.

(** [x === 0] *)
Definition isZero (a : num) : bool :=
  match a with
  | Fin x => Reqb x 0
  | _ => false
  end.

(** The [positions] array of the fill geometry: for every [i] from 1 to
    [vertices.length - 2] the nine coordinates of vertex 0, vertex [i] and
    vertex [i + 1]. *)
Definition fanPositions (vertices : list vec3) : list num :=
  let at_ i := nth i vertices noVec in
  let spread v := [v0 v; v1 v; v2 v] in
  fold_left (fun positions i =>
               positions ++ spread (at_ 0%nat) ++ spread (at_ i)
                         ++ spread (at_ (i + 1)%nat))
            (seq 1 (length vertices - 1 - 1)) [].

Record plane_data : Type :=
  PlaneData { fillPositions : list num; edgePoints : list vec3 }.

(** The [planeData] memo of [MillerPlane], up to the geometry buffers: [None]
    is [null]. *)
Definition planeData (structure : Structure) (latticeConstant : option num)
    (show : bool) (h k l offset : num) (bounds : num) : option plane_data :=
  if negb show || (isZero h && isZero k && isZero l) then None
  else
    let a := orDefaultA latticeConstant structure in
    let r := computePlane h k l (vectors structure) a in
    let c := clipPlaneToBox (planeNormal r) (offset * dSpacing r) bounds in
    if (length (vertices c) <? 3)%nat then None
    else Some (PlaneData (fanPositions (vertices c)) (closeLoop (edgeLoop c))).

(** The index typed into the sidebar, after [parseInt]:
    [Math.max(-4, Math.min(4, parsed || 0))]. *)
Definition clampIndex (parsed : num) : num :=
  nmax (Fin (-4)) (nmin (Fin 4) (if truthy parsed then parsed else Fin 0)).

(** ** Binary64 numbers

    The second number model: a JavaScript number as the IEEE 754 binary64
    value it is, with the operations of the language rounded to nearest,
    ties to even.  It is used for the properties whose truth depends on
    rounding, overflow or underflow. *)

(** A signed zero, a signed infinity, NaN, or [(-1)^s * m * 2^e]. *)
Definition f64 : Type := spec_float.

Definition fadd : f64 -> f64 -> f64 := SFadd 53 1024.
Definition fsub : f64 -> f64 -> f64 := SFsub 53 1024.
Definition fmul : f64 -> f64 -> f64 := SFmul 53 1024.
Definition fdiv : f64 -> f64 -> f64 := SFdiv 53 1024.
(** [Math.sqrt], [Math.abs], unary minus *)
Definition fsqrt : f64 -> f64 := SFsqrt 53 1024.
Definition fabs : f64 -> f64 := SFabs.
Definition fneg : f64 -> f64 := SFopp.
(** [a <= b], [a < b], [a > b] *)
Definition fleb : f64 -> f64 -> bool := SFleb.
Definition fltb : f64 -> f64 -> bool := SFltb.
Definition fgtb (a b : f64) : bool := SFltb b a.

(** An integer literal. *)
Definition ofZ (z : Z) : f64 := binary_normalize 53 1024 z 0 false.

(** The decimal literal [m * 10^-k], for integers [m] and [10^k] that are
    binary64 numbers themselves: their quotient, rounded once. *)
Definition dec (m k : Z) : f64 := fdiv (ofZ m) (ofZ (10 ^ k)).


(** A number that is a binary64 value: the mantissa has at most 53 bits and
    the exponent is in range. *)
Definition valid (x : f64) : Prop := valid_binary 53 1024 x = true.

Definition fzero (x : f64) : Prop :=
  match x with S754_zero _ => True | _ => False end.


(** Truthiness of a number: the two zeros and [NaN] are falsy. *)
Definition ftruthy (x : f64) : bool :=
  match x with S754_zero _ | S754_nan => false | _ => true end.

(** [Math.max(a, b)]: NaN as soon as an argument is NaN, and [+0] above
    [-0]. *)
Definition fmax (a b : f64) : f64 :=
  match a, b with
  | S754_nan, _ | _, S754_nan => S754_nan
  | S754_zero sa, S754_zero sb => S754_zero (sa && sb)
  | _, _ => if fltb a b then b else a
  end.

Declare Scope f64_scope.
Delimit Scope f64_scope with f64.
Bind Scope f64_scope with f64.
Infix "+" := fadd : f64_scope.
Infix "-" := fsub : f64_scope.
Infix "*" := fmul : f64_scope.
Infix "/" := fdiv : f64_scope.

(** ** The kernel over binary64 numbers

    The same functions as above, translated from the same source lines, on
    binary64 numbers. *)

Module B64.

Record vec3 : Type := V3 { v0 : f64; v1 : f64; v2 : f64 }.

Definition cross (a b : vec3) : vec3 :=
  V3 (v1 a * v2 b - v2 a * v1 b)
     (v2 a * v0 b - v0 a * v2 b)
     (v0 a * v1 b - v1 a * v0 b).

Definition dot (a b : vec3) : f64 :=
  (v0 a * v0 b + v1 a * v1 b + v2 a * v2 b)%f64.

Definition scale (v : vec3) (s : f64) : vec3 :=
  V3 (v0 v * s) (v1 v * s) (v2 v * s).

Definition add (a b : vec3) : vec3 :=
  V3 (v0 a + v0 b) (v1 a + v1 b) (v2 a + v2 b).

Definition magnitude (v : vec3) : f64 :=
  fsqrt (v0 v * v0 v + v1 v * v1 v + v2 v * v2 v).

Definition normalize (v : vec3) : vec3 :=
  let m := magnitude v in
  if fgtb m (ofZ 0) then V3 (v0 v / m) (v1 v / m) (v2 v / m)
  else V3 (ofZ 0) (ofZ 0) (ofZ 0).

Record Atom : Type := MkAtom { position : vec3; isEdge : bool }.

Definition noVec : vec3 := V3 S754_nan S754_nan S754_nan.
Definition noAtom : Atom := MkAtom noVec false.

Record lattice_vectors : Type := Vectors { a1v : vec3; a2v : vec3; a3v : vec3 }.

Record plane_result : Type :=
  PlaneResult { planeNormal : vec3; dSpacing : f64; G : vec3 }.

Definition computePlane (h k l : f64) (vectors : lattice_vectors) (a : f64)
  : plane_result :=
  let a1 := scale (a1v vectors) a in
  let a2 := scale (a2v vectors) a in
  let a3 := scale (a3v vectors) a in
  let a2xa3 := cross a2 a3 in
  let vol := dot a1 a2xa3 in
  let b1 := scale (cross a2 a3) (ofZ 1 / vol) in
  let b2 := scale (cross a3 a1) (ofZ 1 / vol) in
  let b3 := scale (cross a1 a2) (ofZ 1 / vol) in
  let G := add (add (scale b1 h) (scale b2 k)) (scale b3 l) in
  let Gmag := magnitude G in
  let dSpacing :=
    if fgtb Gmag (ofZ 0) then (ofZ 1 / Gmag)%f64 else S754_infinity false in
  let planeNormal := normalize G in
  PlaneResult planeNormal dSpacing G.

Definition intersectEdgePlane (a b normal : vec3) (d : f64) : vec3 :=
  let da := (dot a normal - d)%f64 in
  let db := (dot b normal - d)%f64 in
  let t := (da / (da - db))%f64 in
  V3 (v0 a + t * (v0 b - v0 a))
     (v1 a + t * (v1 b - v1 a))
     (v2 a + t * (v2 b - v2 a)).

Definition clipIter (vertices : list vec3) (normal : vec3) (d : f64)
    (output : list vec3) (i : nat) : list vec3 :=
  let current := nth i vertices noVec in
  let next := nth ((i + 1) mod length vertices) vertices noVec in
  let dc := dot current normal in
  let dn := dot next normal in
  let currentInside := fleb dc (d + dec 1 3) in
  let nextInside := fleb dn (d + dec 1 3) in
  if currentInside then
    let output := output ++ [current] in
    if negb nextInside
    then output ++ [intersectEdgePlane current next normal d]
    else output
  else if nextInside
  then output ++ [intersectEdgePlane current next normal d]
  else output.

Definition clipPolygonByPlane (vertices : list vec3) (normal : vec3) (d : f64)
  : list vec3 :=
  if (length vertices =? 0)%nat then []
  else fold_left (clipIter vertices normal d) (seq 0 (length vertices)) [].

Record clip_plane : Type := ClipPlane { cp_normal : vec3; cp_d : f64 }.

Record clipped_polygon : Type :=
  Clipped { vertices : list vec3; edgeLoop : list vec3 }.

Definition clipPlanes (bounds : f64) : list clip_plane :=
  [ ClipPlane (V3 (ofZ 1) (ofZ 0) (ofZ 0)) bounds;
    ClipPlane (V3 (ofZ (-1)) (ofZ 0) (ofZ 0)) bounds;
    ClipPlane (V3 (ofZ 0) (ofZ 1) (ofZ 0)) bounds;
    ClipPlane (V3 (ofZ 0) (ofZ (-1)) (ofZ 0)) bounds;
    ClipPlane (V3 (ofZ 0) (ofZ 0) (ofZ 1)) bounds;
    ClipPlane (V3 (ofZ 0) (ofZ 0) (ofZ (-1))) bounds ].

Fixpoint clipLoop (polygon : list vec3) (clips : list clip_plane)
  : clipped_polygon :=
  match clips with
  | [] => Clipped polygon polygon
  | clip :: rest =>
      let polygon := clipPolygonByPlane polygon (cp_normal clip) (cp_d clip) in
      if (length polygon <? 3)%nat then Clipped [] []
      else clipLoop polygon rest
  end.

Definition tangents (planeNormal : vec3) : vec3 * vec3 :=
  let tangent1 :=
    if fltb (fabs (v0 planeNormal)) (dec 9 1)
    then normalize (cross planeNormal (V3 (ofZ 1) (ofZ 0) (ofZ 0)))
    else normalize (cross planeNormal (V3 (ofZ 0) (ofZ 1) (ofZ 0))) in
  let tangent2 := normalize (cross planeNormal tangent1) in
  (tangent1, tangent2).

Definition initialQuad (planeNormal : vec3) (offset bounds : f64) : list vec3 :=
  let d := offset in
  let '(tangent1, tangent2) := tangents planeNormal in
  let size := (bounds * ofZ 3)%f64 in
  let center := scale planeNormal d in
  [ add (add center (scale tangent1 (fneg size))) (scale tangent2 (fneg size));
    add (add center (scale tangent1 size)) (scale tangent2 (fneg size));
    add (add center (scale tangent1 size)) (scale tangent2 size);
    add (add center (scale tangent1 (fneg size))) (scale tangent2 size) ].

Definition clipPlaneToBox (planeNormal : vec3) (offset bounds : f64)
  : clipped_polygon :=
  let quad := initialQuad planeNormal offset bounds in
  clipLoop quad (clipPlanes bounds).

Record Structure : Type :=
  MkStructure { id : string; basis : list vec3;
                vectors : lattice_vectors; defaultA : f64 }.

Record Bond : Type := MkBond { start : vec3; end_ : vec3 }.

Definition orDefaultA (latticeConstant : option f64) (structure : Structure)
  : f64 :=
  match latticeConstant with
  | Some x => if ftruthy x then x else defaultA structure
  | None => defaultA structure
  end.

Definition maxBondLengthOf (id : string) (a : f64) : f64 :=
  if String.eqb id "sc" then (a * dec 105 2)%f64
  else if String.eqb id "bcc"
       then (a * fsqrt (ofZ 3) / ofZ 2 * dec 105 2)%f64
  else if String.eqb id "fcc"
       then (a * fsqrt (ofZ 2) / ofZ 2 * dec 105 2)%f64
  else if String.eqb id "diamond"
       then (a * fsqrt (ofZ 3) / ofZ 4 * dec 105 2)%f64
  else if String.eqb id "hcp" then (a * dec 105 2)%f64
  else (a * dec 105 2)%f64.

Definition distance (p q : vec3) : f64 :=
  let dx := (v0 p - v0 q)%f64 in
  let dy := (v1 p - v1 q)%f64 in
  let dz := (v2 p - v2 q)%f64 in
  fsqrt (dx * dx + dy * dy + dz * dz).

Definition bondsWithin (atoms : list Atom) (maxBondLength : f64) : list Bond :=
  let at_ i := position (nth i atoms noAtom) in
  fold_left (fun bonds i =>
    fold_left (fun bonds j =>
      let dist := distance (at_ i) (at_ j) in
      if fleb dist maxBondLength && fgtb dist (dec 1 2)
      then bonds ++ [MkBond (at_ i) (at_ j)]
      else bonds)
      (seq (i + 1) (length atoms - (i + 1))) bonds)
    (seq 0 (length atoms)) [].

Definition generateBonds (atoms : list Atom) (structure : Structure)
    (latticeConstant : option f64) : list Bond :=
  let a := orDefaultA latticeConstant structure in
  let maxBondLength := maxBondLengthOf (id structure) a in
  bondsWithin atoms maxBondLength.

Definition cubicVectors : lattice_vectors :=
  Vectors (V3 (ofZ 1) (ofZ 0) (ofZ 0)) (V3 (ofZ 0) (ofZ 1) (ofZ 0))
          (V3 (ofZ 0) (ofZ 0) (ofZ 1)).

Definition posAt (atoms : list Atom) (i : nat) : vec3 :=
  position (nth i atoms noAtom).

Definition coord (ax : nat) (v : vec3) : f64 :=
  match ax with
  | O => v0 v
  | S O => v1 v
  | _ => v2 v
  end.

(** [dc <= d + 0.001]: the vertex is kept by the clip plane. *)
Definition inside (v normal : vec3) (d : f64) : bool :=
  fleb (dot v normal) (d + dec 1 3).

(** What one loop iteration of [clipPolygonByPlane] pushes for the edge from
    [current] to [next]. *)
Definition clipEdge (current next normal : vec3) (d : f64) : list vec3 :=
  if inside current normal d then
    current :: (if negb (inside next normal d)
                then [intersectEdgePlane current next normal d] else [])
  else if inside next normal d
  then [intersectEdgePlane current next normal d]
  else [].




(** A bond whose two ends are [p] and [q], in either order. *)
Definition connects (b : Bond) (p q : vec3) : Prop :=
  (start b = p /\ end_ b = q) \/ (start b = q /\ end_ b = p).

(** The test of the inner loop body of [generateBonds]. *)
Definition bondTest (p q : vec3) (maxBondLength : f64) : bool :=
  fleb (distance p q) maxBondLength && fgtb (distance p q) (dec 1 2).

(** The [latticeBounds] memo of [Lattice] in Scene.jsx. *)
Definition latticeBounds (atoms : list Atom) (a : f64) : f64 :=
  if (length atoms =? 0)%nat then ofZ 5
  else
    let maxDist :=
      fold_left (fun maxDist atom =>
        fold_left (fun maxDist i =>
                     fmax maxDist (fabs (coord i (position atom))))
                  (seq 0 3) maxDist)
        atoms (ofZ 0) in
    (maxDist + a * dec 3 1)%f64.

(** A loop counter ([i], [j], [k], [repeat]) as a number. *)
Definition ofNat (n : nat) : f64 := ofZ (Z.of_nat n).

(** The position [[x, y, z]] computed in the loop body of [generateLattice]
    for the cell [(i, j, k)] and the basis entry [b]. *)
Definition cellPosition (vectors : lattice_vectors) (a offset : f64)
    (i j k : nat) (b : vec3) : vec3 :=
  let fracX := (v0 b + ofNat i)%f64 in
  let fracY := (v1 b + ofNat j)%f64 in
  let fracZ := (v2 b + ofNat k)%f64 in
  let x := (fracX * v0 (a1v vectors) * a + fracY * v0 (a2v vectors) * a
            + fracZ * v0 (a3v vectors) * a - offset)%f64 in
  let y := (fracX * v1 (a1v vectors) * a + fracY * v1 (a2v vectors) * a
            + fracZ * v1 (a3v vectors) * a - offset)%f64 in
  let z := (fracX * v2 (a1v vectors) * a + fracY * v2 (a2v vectors) * a
            + fracZ * v2 (a3v vectors) * a - offset)%f64 in
  V3 x y z.

(** [((repeat - 1) * a) / 2] *)
Definition latticeOffset (repeat : nat) (a : f64) : f64 :=
  ((ofNat repeat - ofZ 1) * a / ofZ 2)%f64.

Record unit_cell : Type :=
  UnitCell { corners : list vec3; edges : list (nat * nat) }.

Definition generateUnitCell (structure : Structure)
    (latticeConstant : option f64) : unit_cell :=
  let a := orDefaultA latticeConstant structure in
  let scaled vec := V3 (v0 vec * a) (v1 vec * a) (v2 vec * a) in
  let w0 := scaled (a1v (vectors structure)) in
  let w1 := scaled (a2v (vectors structure)) in
  let w2 := scaled (a3v (vectors structure)) in
  let origin := V3 (ofZ 0) (ofZ 0) (ofZ 0) in
  UnitCell
    [ origin; w0; w1; w2;
      V3 (v0 w0 + v0 w1) (v1 w0 + v1 w1) (v2 w0 + v2 w1);
      V3 (v0 w0 + v0 w2) (v1 w0 + v1 w2) (v2 w0 + v2 w2);
      V3 (v0 w1 + v0 w2) (v1 w1 + v1 w2) (v2 w1 + v2 w2);
      V3 (v0 w0 + v0 w1 + v0 w2) (v1 w0 + v1 w1 + v1 w2)
         (v2 w0 + v2 w1 + v2 w2) ]
    [ (0, 1); (0, 2); (0, 3); (1, 4); (1, 5); (2, 4); (2, 6);
      (3, 5); (3, 6); (4, 7); (5, 7); (6, 7) ]%nat.

(** The [offset] of [UnitCellWireframe]:
    [latticeConstant ? latticeConstant / 2 : structure.defaultA / 2]. *)
Definition wireframeOffset (structure : Structure)
    (latticeConstant : option f64) : f64 :=
  match latticeConstant with
  | Some x => if ftruthy x then (x / ofZ 2)%f64
              else (defaultA structure / ofZ 2)%f64
  | None => (defaultA structure / ofZ 2)%f64
  end.

(** The point drawn for corner [i]: [corners[i]] minus the offset in each
    coordinate. *)
Definition wireframeCorner (structure : Structure)
    (latticeConstant : option f64) (i : nat) : vec3 :=
  let cell := generateUnitCell structure latticeConstant in
  let offset := wireframeOffset structure latticeConstant in
  let c := nth i (corners cell) noVec in
  V3 (v0 c - offset) (v1 c - offset) (v2 c - offset).

End B64.

(** ** Reference definitions for binary64 statements *)

(** A zero of either sign, or NaN. *)
Definition zero_or_nan (x : f64) : Prop :=
  match x with S754_zero _ | S754_nan => True | _ => False end.






(** The Euclidean distance of the specification,
    [sqrt ((px - qx)^2 + (py - qy)^2 + (pz - qz)^2)], each operation rounded
    to binary64. *)
Definition euclidean (p q : B64.vec3) : f64 :=
  fsqrt ((B64.v0 p - B64.v0 q) * (B64.v0 p - B64.v0 q)
         + (B64.v1 p - B64.v1 q) * (B64.v1 p - B64.v1 q)
         + (B64.v2 p - B64.v2 q) * (B64.v2 p - B64.v2 q)).

(** Two atoms 13 apart: (1,2,3) and (4,6,15). *)
Definition atoms13 : list B64.Atom :=
  [B64.MkAtom (B64.V3 (ofZ 1) (ofZ 2) (ofZ 3)) true;
   B64.MkAtom (B64.V3 (ofZ 4) (ofZ 6) (ofZ 15)) true].

(** The face-centred cubic entry of the catalogue. *)
Definition fcc64 : B64.Structure :=
  B64.MkStructure "fcc"
    [B64.V3 (ofZ 0) (ofZ 0) (ofZ 0); B64.V3 (dec 5 1) (dec 5 1) (ofZ 0);
     B64.V3 (dec 5 1) (ofZ 0) (dec 5 1); B64.V3 (ofZ 0) (dec 5 1) (dec 5 1)]
    B64.cubicVectors (dec 361 2).











(** A number that is not negative: [+0], a positive number or
    [+Infinity]. *)
Definition fnonneg (x : f64) : Prop :=
  match x with
  | S754_zero false | S754_infinity false | S754_finite false _ _ => True
  | _ => False
  end.

(** The rank of a non-negative number in the order of [<=]: the class
    (zero, finite, infinite), then the exponent, then the mantissa. *)
Definition rank (x : f64) : Z * Z * Z :=
  match x with
  | S754_finite _ m e => (1, e, Zpos m)%Z
  | S754_infinity _ => (2, 0, 0)%Z
  | _ => (0, 0, 0)%Z
  end.

Definition rank_le (r s : Z * Z * Z) : Prop :=
  let '(c, e, m) := r in
  let '(c', e', m') := s in
  (c < c' \/ (c = c' /\ (e < e' \/ (e = e' /\ m <= m'))))%Z.

(** The absolute values of the coordinates of the atoms. *)
Definition absCoords (atoms : list B64.Atom) : list f64 :=
  flat_map (fun atom => map (fun i => fabs (B64.coord i (B64.position atom)))
                            (seq 0 3)) atoms.



(** Two results that are the same number: identical, or two zeros (which
    may differ in sign). *)
Definition same_number (x y : f64) : Prop :=
  x = y \/ (fzero x /\ fzero y).

Definition same_point (u v : B64.vec3) : Prop :=
  same_number (B64.v0 u) (B64.v0 v)
  /\ same_number (B64.v1 u) (B64.v1 v)
  /\ same_number (B64.v2 u) (B64.v2 v).

(** A binary64 number other than the infinities and NaN. *)
Definition regular (x : f64) : Prop :=
  valid x /\ match x with
             | S754_zero _ | S754_finite _ _ _ => True
             | _ => False
             end.

Definition regular_vec (v : B64.vec3) : Prop :=
  regular (B64.v0 v) /\ regular (B64.v1 v) /\ regular (B64.v2 v).

(** The cell indices [(i, j, k)] of the eight corners, in the order of the
    [corners] array. *)
Definition cornerCells : list (nat * nat * nat) :=
  [(0, 0, 0); (1, 0, 0); (0, 1, 0); (0, 0, 1);
   (1, 1, 0); (1, 0, 1); (0, 1, 1); (1, 1, 1)]%nat.

(** The lattice vector an edge of the unit cell runs along, by the position
    of the edge in the [edges] array. *)
Definition edgeVectors : list nat :=
  [0; 1; 2; 1; 2; 0; 2; 0; 1; 2; 1; 0]%nat.

(** [vectors[n]] scaled by [a], as [generateUnitCell] computes it. *)
Definition scaledVector (structure : B64.Structure)
    (latticeConstant : option f64) (n : nat) : B64.vec3 :=
  let a := B64.orDefaultA latticeConstant structure in
  let vs := B64.vectors structure in
  let vec := match n with
             | O => B64.a1v vs
             | S O => B64.a2v vs
             | _ => B64.a3v vs
             end in
  B64.V3 (B64.v0 vec * a) (B64.v1 vec * a) (B64.v2 vec * a).

(** A cell whose edges 0.1, 0.2 and 0.3 along [x] do not add up the same
    way in every order. *)
Definition skewCell : B64.Structure :=
  B64.MkStructure "skew" [B64.V3 (ofZ 0) (ofZ 0) (ofZ 0)]
    (B64.Vectors (B64.V3 (dec 1 1) (ofZ 0) (ofZ 0))
                 (B64.V3 (dec 2 1) (ofZ 1) (ofZ 0))
                 (B64.V3 (dec 3 1) (ofZ 0) (ofZ 1)))
    (ofZ 1).

(** * Properties *)

(** ** Comparisons on the reals *)

Lemma Rleb_true x y : x <= y -> Rleb x y = true.
Proof. unfold Rleb; destruct (Rle_dec x y); tauto. Qed.

Lemma Rleb_false x y : y < x -> Rleb x y = false.
Proof. unfold Rleb; destruct (Rle_dec x y); [lra | reflexivity]. Qed.

Lemma Rltb_true x y : x < y -> Rltb x y = true.
Proof. unfold Rltb; destruct (Rlt_dec x y); tauto. Qed.

Lemma Rltb_false x y : y <= x -> Rltb x y = false.
Proof. unfold Rltb; destruct (Rlt_dec x y); [lra | reflexivity]. Qed.

Lemma Reqb_true x y : x = y -> Reqb x y = true.
Proof. unfold Reqb; destruct (Req_dec_T x y); tauto. Qed.

Lemma Reqb_false x y : x <> y -> Reqb x y = false.
Proof. unfold Reqb; destruct (Req_dec_T x y); tauto. Qed.

Lemma ndiv_fin x y : y <> 0 -> (Fin x / Fin y)%num = Fin (x / y).
Proof. intros H; simpl; now rewrite Reqb_false. Qed.

Lemma nsqrt_fin x : 0 <= x -> nsqrt (Fin x) = Fin (sqrt x).
Proof. intros H; simpl; now rewrite Rltb_false. Qed.

(** ** computePlane *)









(** *** Evaluating the special values *)

Lemma inf_times_non_finite pos x : non_finite (inf_times pos x).
Proof.
  unfold inf_times.
  destruct (Reqb x 0), (Rltb 0 x), pos; exact I.
Qed.

Ltac rdecide :=
  repeat match goal with
    | |- context [Rleb ?x ?y] =>
        first [ rewrite (Rleb_true x y) by lra
              | rewrite (Rleb_false x y) by lra ]
    | |- context [Rltb ?x ?y] =>
        first [ rewrite (Rltb_true x y) by lra
              | rewrite (Rltb_false x y) by lra ]
    | |- context [Reqb ?x ?y] =>
        first [ rewrite (Reqb_true x y) by lra
              | rewrite (Reqb_false x y) by lra ]
    end.

Ltac neval :=
  repeat (progress
            (cbn [nmul nadd nsub nneg ndiv nsqrt nabs nleb nltb ngtb truthy
                  negb andb orb];
             unfold inf_times; rdecide)).

(** ** The lattice constant argument *)

Lemma orDefaultA_falsy lc s : falsy_constant lc -> orDefaultA lc s = defaultA s.
Proof.
  intros [-> | ->]; [reflexivity|].
  unfold orDefaultA; cbn [truthy]. now rewrite Reqb_true.
Qed.

Lemma orDefaultA_default s : orDefaultA (Some (defaultA s)) s = defaultA s.
Proof. unfold orDefaultA. destruct (truthy (defaultA s)); reflexivity. Qed.

Lemma orDefaultA_nonzero (x : R) s : x <> 0 -> orDefaultA (Some (Fin x)) s = Fin x.
Proof. intros H. unfold orDefaultA; cbn [truthy]. now rewrite Reqb_false. Qed.

(** C10. An omitted, [null] or 0 lattice constant makes [generateLattice],
    [generateBonds] and [generateUnitCell] behave exactly as if
    [structure.defaultA] had been passed; no value is rejected, and a
    negative constant is used as it is. *)
Theorem falsy_latticeConstant_uses_defaultA :
  forall (structure : Structure) (latticeConstant : option num),
    falsy_constant latticeConstant ->
    (forall repeat,
        generateLattice structure repeat latticeConstant
        = generateLattice structure repeat (Some (defaultA structure)))
    /\ (forall atoms,
           generateBonds atoms structure latticeConstant
           = generateBonds atoms structure (Some (defaultA structure)))
    /\ generateUnitCell structure latticeConstant
       = generateUnitCell structure (Some (defaultA structure))
    /\ (forall x : R, x < 0 -> orDefaultA (Some (Fin x)) structure = Fin x).
Proof.
  intros s lc Hf.
  pose proof (orDefaultA_falsy lc s Hf) as E1.
  pose proof (orDefaultA_default s) as E2.
  repeat split.
  - intros r. unfold generateLattice, generateLatticeState.
    now rewrite E1, E2.
  - intros atoms. unfold generateBonds. now rewrite E1, E2.
  - unfold generateUnitCell. now rewrite E1, E2.
  - intros x Hx. apply orDefaultA_nonzero; lra.
Qed.

Lemma falsy_latticeConstant_uses_defaultA_witness :
  falsy_constant (Some (Fin 0)) /\
  generateUnitCell fcc (Some (Fin 0)) = generateUnitCell fcc (Some (defaultA fcc)).
Proof.
  assert (H : falsy_constant (Some (Fin 0))) by (right; reflexivity).
  split; [exact H|].
  exact (proj1 (proj2 (proj2
           (falsy_latticeConstant_uses_defaultA fcc (Some (Fin 0)) H)))).
Defined.

(** ** generateBonds *)

Lemma fold_left_push {A B : Type} (f : list B -> A -> list B) (g : A -> list B) :
  (forall acc x, f acc x = acc ++ g x) ->
  forall l acc, fold_left f l acc = acc ++ flat_map g l.
Proof.
  intros Hf l. induction l as [|x l IH]; intros acc; cbn [fold_left flat_map].
  - now rewrite app_nil_r.
  - now rewrite IH, Hf, app_assoc.
Qed.

Lemma bondsWithin_flat atoms m :
  bondsWithin atoms m
  = flat_map (fun i =>
      flat_map (fun j =>
        if bondTest (posAt atoms i) (posAt atoms j) m
        then [MkBond (posAt atoms i) (posAt atoms j)] else [])
        (seq (i + 1) (length atoms - (i + 1))))
      (seq 0 (length atoms)).
Proof.
  unfold bondsWithin.
  rewrite fold_left_push with
    (g := fun i =>
      flat_map (fun j =>
        if bondTest (posAt atoms i) (posAt atoms j) m
        then [MkBond (posAt atoms i) (posAt atoms j)] else [])
        (seq (i + 1) (length atoms - (i + 1)))); [reflexivity|].
  intros acc i. apply fold_left_push.
  intros acc' j. unfold bondTest, posAt.
  destruct (nleb _ m && ngtb _ (Fin 0.01)); [reflexivity|].
  now rewrite app_nil_r.
Qed.

Lemma bondsWithin_In atoms m b :
  In b (bondsWithin atoms m) <->
  exists i j, (i < j < length atoms)%nat
              /\ bondTest (posAt atoms i) (posAt atoms j) m = true
              /\ b = MkBond (posAt atoms i) (posAt atoms j).
Proof.
  rewrite bondsWithin_flat, in_flat_map. split.
  - intros (i & Hi & Hb). apply in_flat_map in Hb as (j & Hj & Hb).
    apply in_seq in Hi, Hj. exists i, j.
    destruct (bondTest _ _ m); [|destruct Hb].
    destruct Hb as [<- | []]. repeat split; lia.
  - intros (i & j & Hij & Ht & ->). exists i. split; [apply in_seq; lia|].
    apply in_flat_map. exists j. split; [apply in_seq; lia|].
    rewrite Ht. now left.
Qed.

(** *** The fallback cutoff *)

Lemma maxBondLengthOf_default i a :
  ~ In i STRUCTURE_ORDER -> maxBondLengthOf i a = (a * Fin 1.05)%num.
Proof.
  intros Hn. unfold maxBondLengthOf.
  repeat match goal with
    | |- context [String.eqb i ?s] =>
        destruct (String.eqb_spec i s) as [-> | _];
        [exfalso; apply Hn; cbn; tauto|]
    end.
  reflexivity.
Qed.

(** C5 (as the code has it).  For a structure whose id is none of 'sc',
    'bcc', 'fcc', 'diamond', 'hcp', [generateBonds] uses 1.05 times the
    lattice constant as the bond cutoff. *)
Theorem generateBonds_unknown_id_cutoff :
  forall (atoms : list Atom) (structure : Structure)
         (latticeConstant : option num),
    ~ In (id structure) STRUCTURE_ORDER ->
    generateBonds atoms structure latticeConstant
    = bondsWithin atoms (orDefaultA latticeConstant structure * Fin 1.05)%num.
Proof.
  intros atoms s lc Hn. unfold generateBonds.
  now rewrite maxBondLengthOf_default.
Qed.

Lemma unknownStructure_unrecognized : ~ In (id unknownStructure) STRUCTURE_ORDER.
Proof.
  cbn. intros H.
  repeat (destruct H as [H | H]; [discriminate H|]). exact H.
Qed.

Lemma generateBonds_unknown_id_cutoff_witness :
  ~ In (id unknownStructure) STRUCTURE_ORDER /\
  generateBonds twoAtoms unknownStructure None
  = bondsWithin twoAtoms (orDefaultA None unknownStructure * Fin 1.05)%num.
Proof.
  split; [exact unknownStructure_unrecognized|].
  exact (generateBonds_unknown_id_cutoff twoAtoms unknownStructure None
           unknownStructure_unrecognized).
Defined.

Lemma distance_twoAtoms :
  distance (posAt twoAtoms 0) (posAt twoAtoms 1) = Fin 1.02.
Proof.
  unfold distance, posAt; cbn [nth twoAtoms position v0 v1 v2 nsub nneg nadd nmul].
  replace ((0 + - (1.02)) * (0 + - (1.02)) + (0 + - 0) * (0 + - 0)
           + (0 + - 0) * (0 + - 0)) with (1.02 * 1.02) by lra.
  rewrite nsqrt_fin by lra. f_equal. apply sqrt_square; lra.
Qed.

(** C5 (counterexample).  With the unrecognized id 'tetragonal' and lattice
    constant 1, two atoms 1.02 apart are bonded: the cutoff in use is not the
    lattice constant itself, under which they would not be. *)
Lemma generateBonds_unknown_id_not_a :
  ~ In (id unknownStructure) STRUCTURE_ORDER /\
  bondsWithin twoAtoms (orDefaultA (Some (Fin 1)) unknownStructure) = [] /\
  generateBonds twoAtoms unknownStructure (Some (Fin 1))
  = [MkBond (V3 0 0 0) (V3 1.02 0 0)].
Proof.
  split; [exact unknownStructure_unrecognized|].
  unfold generateBonds.
  rewrite maxBondLengthOf_default by exact unknownStructure_unrecognized.
  rewrite orDefaultA_nonzero by lra.
  rewrite !bondsWithin_flat.
  cbn [length twoAtoms seq flat_map Nat.add Nat.sub app].
  unfold bondTest. fold twoAtoms. rewrite distance_twoAtoms.
  split; neval; reflexivity.
Qed.

(** ** generateLattice *)

Lemma fold_left_ext {A B : Type} (f g : A -> B -> A) :
  (forall a b, f a b = g a b) ->
  forall l a, fold_left f l a = fold_left g l a.
Proof.
  intros H l. induction l as [|x l IH]; intros a; cbn; [reflexivity|].
  now rewrite H, IH.
Qed.

Lemma fold_left_flat_map {A B C : Type} (f : A -> C -> A) (g : B -> list C) :
  forall l a,
    fold_left f (flat_map g l) a
    = fold_left (fun acc x => fold_left f (g x) acc) l a.
Proof.
  induction l as [|x l IH]; intros a; cbn; [reflexivity|].
  now rewrite fold_left_app, IH.
Qed.

Lemma fold_left_map {A B C : Type} (f : A -> C -> A) (g : B -> C) :
  forall l a,
    fold_left f (map g l) a = fold_left (fun acc x => f acc (g x)) l a.
Proof.
  induction l as [|x l IH]; intros a; cbn; [reflexivity|]. apply IH.
Qed.

Lemma latticeBody_pushAtom V a off r i j k st b :
  latticeBody V a off r i j k st b
  = pushAtom st (MkAtom (cellPosition V a off i j k b) (edgeFlag r i j k)).
Proof. destruct st as [atoms seen]. reflexivity. Qed.

(** The nested loops add the candidates one after the other. *)
Lemma generateLatticeState_candidates s r lc :
  generateLatticeState s r lc
  = fold_left pushAtom (latticeCandidates s r lc) ([], []).
Proof.
  unfold generateLatticeState, latticeCandidates, candidateAtoms.
  rewrite fold_left_flat_map. apply fold_left_ext. intros st i.
  rewrite fold_left_flat_map. apply fold_left_ext. intros st' j.
  rewrite fold_left_flat_map. apply fold_left_ext. intros st'' k.
  rewrite fold_left_map. apply fold_left_ext. intros st3 b.
  apply latticeBody_pushAtom.
Qed.

Lemma rounded_eqb_eq a b : rounded_eqb a b = true <-> a = b.
Proof.
  destruct a, b; cbn; split; intros H; try discriminate; try reflexivity.
  - apply Z.eqb_eq in H. now subst.
  - inversion H. apply Z.eqb_refl.
Qed.

Lemma key_eqb_eq a b : key_eqb a b = true <-> a = b.
Proof.
  destruct a as [[a0 a1] a2], b as [[b0 b1] b2]. unfold key_eqb.
  rewrite !andb_true_iff, !rounded_eqb_eq. split.
  - intros [[-> ->] ->]. reflexivity.
  - intros H. inversion H. auto.
Qed.

Lemma has_In seen k : has seen k = true <-> In k seen.
Proof.
  unfold has. rewrite existsb_exists. split.
  - intros (x & Hx & E). apply key_eqb_eq in E. now subst.
  - intros H. exists k. split; [exact H | now apply key_eqb_eq].
Qed.

Lemma has_not_In seen k : has seen k = false <-> ~ In k seen.
Proof.
  rewrite <- has_In. destruct (has seen k); split; intros H;
    (discriminate || congruence || (exfalso; now apply H)).
Qed.

Lemma pushAtom_inv st c : lattice_inv st -> lattice_inv (pushAtom st c).
Proof.
  destruct st as [atoms seen]. unfold lattice_inv, pushAtom; cbn [fst snd].
  intros [E ND]. destruct (has seen (atomKey c)) eqn:Hh; cbn [negb fst snd].
  - split; assumption.
  - split.
    + now rewrite map_app, E.
    + apply NoDup_app; [exact ND| |].
      * constructor; [intros []|constructor].
      * intros x Hx [<- | []]. apply has_not_In in Hh. contradiction.
Qed.

Lemma pushAll_inv l : forall st, lattice_inv st -> lattice_inv (fold_left pushAtom l st).
Proof.
  induction l as [|c l IH]; intros st H; cbn; [exact H|].
  apply IH, pushAtom_inv, H.
Qed.

Lemma pushAll_length_le l :
  forall st,
    (length (fst (fold_left pushAtom l st)) <= length (fst st) + length l)%nat.
Proof.
  induction l as [|c l IH]; intros [atoms seen]; cbn [fold_left length fst].
  - lia.
  - unfold pushAtom at 2.
    destruct (negb (has seen (atomKey c)));
      match goal with |- context [fold_left pushAtom l ?s] => specialize (IH s) end;
      cbn [fst] in IH; rewrite ?length_app in IH; cbn [length] in IH; lia.
Qed.

(** With pairwise distinct fresh keys every candidate is kept. *)
Lemma pushAll_distinct l :
  forall atoms seen,
    NoDup (seen ++ map atomKey l) ->
    fold_left pushAtom l (atoms, seen) = (atoms ++ l, seen ++ map atomKey l).
Proof.
  induction l as [|c l IH]; intros atoms seen ND; cbn [fold_left map].
  - now rewrite !app_nil_r.
  - cbn [map] in ND. unfold pushAtom at 2.
    assert (Hh : has seen (atomKey c) = false).
    { apply has_not_In. intros Hin.
      apply NoDup_remove_2 in ND. apply ND, in_or_app. now left. }
    rewrite Hh; cbn [negb].
    rewrite IH.
    + now rewrite <- !app_assoc.
    + rewrite <- app_assoc. exact ND.
Qed.

(** Conversely, if no candidate was dropped, the keys were distinct. *)
Lemma pushAll_full_length l :
  forall atoms seen,
    length (fst (fold_left pushAtom l (atoms, seen)))
    = (length atoms + length l)%nat ->
    NoDup seen -> NoDup (seen ++ map atomKey l).
Proof.
  induction l as [|c l IH]; intros atoms seen Hlen ND; cbn [map].
  - now rewrite app_nil_r.
  - cbn [fold_left length] in Hlen. unfold pushAtom at 2 in Hlen.
    destruct (has seen (atomKey c)) eqn:Hh; cbn [negb] in Hlen.
    + pose proof (pushAll_length_le l (atoms, seen)) as Hle.
      cbn [fst] in Hle. lia.
    + specialize (IH (atoms ++ [c]) (seen ++ [atomKey c])).
      rewrite <- app_assoc in IH. cbn [app] in IH. apply IH.
      * rewrite Hlen, length_app. cbn [length]. lia.
      * apply NoDup_app; [exact ND| |].
        -- constructor; [intros []|constructor].
        -- intros x Hx [<- | []]. apply has_not_In in Hh. contradiction.
Qed.

(** Candidates whose key is already in [seen] change nothing. *)
Lemma pushAll_seen l :
  forall atoms seen,
    (forall c, In c l -> In (atomKey c) seen) ->
    fold_left pushAtom l (atoms, seen) = (atoms, seen).
Proof.
  induction l as [|c l IH]; intros atoms seen H; cbn [fold_left]; [reflexivity|].
  unfold pushAtom at 2.
  assert (Hh : has seen (atomKey c) = true) by (apply has_In, H; now left).
  rewrite Hh; cbn [negb]. apply IH. intros c' Hc'. apply H. now right.
Qed.

Lemma generateLattice_candidates s r lc :
  generateLattice s r lc
  = fst (fold_left pushAtom (latticeCandidates s r lc) ([], [])).
Proof. unfold generateLattice. now rewrite generateLatticeState_candidates. Qed.

Lemma generateLattice_keys_NoDup s r lc :
  NoDup (map atomKey (generateLattice s r lc)).
Proof.
  rewrite generateLattice_candidates.
  destruct (pushAll_inv (latticeCandidates s r lc) ([], [])) as [E ND].
  - split; [reflexivity | constructor].
  - now rewrite <- E.
Qed.

Lemma generateLattice_length_le s r lc :
  (length (generateLattice s r lc) <= length (latticeCandidates s r lc))%nat.
Proof.
  rewrite generateLattice_candidates.
  apply (pushAll_length_le (latticeCandidates s r lc) ([], [])).
Qed.

Lemma generateLattice_distinct s r lc :
  NoDup (map atomKey (latticeCandidates s r lc)) ->
  generateLattice s r lc = latticeCandidates s r lc.
Proof.
  intros ND. rewrite generateLattice_candidates.
  now rewrite pushAll_distinct.
Qed.

Lemma generateLattice_full_length s r lc :
  length (generateLattice s r lc) = length (latticeCandidates s r lc) ->
  NoDup (map atomKey (latticeCandidates s r lc)).
Proof.
  rewrite generateLattice_candidates. intros H.
  apply (pushAll_full_length _ [] []); [exact H | constructor].
Qed.

Lemma length_flat_map_const {A B : Type} (f : A -> list B) (n : nat) l :
  (forall x, length (f x) = n) -> length (flat_map f l) = (length l * n)%nat.
Proof.
  intros H. induction l as [|x l IH]; cbn; [reflexivity|].
  now rewrite length_app, H, IH.
Qed.

Lemma candidateAtoms_length V bs a off r :
  length (candidateAtoms V bs a off r) = (r * (r * (r * length bs)))%nat.
Proof.
  unfold candidateAtoms.
  rewrite length_flat_map_const with (n := (r * (r * length bs))%nat).
  - now rewrite length_seq.
  - intros i. rewrite length_flat_map_const with (n := (r * length bs)%nat).
    + now rewrite length_seq.
    + intros j. rewrite length_flat_map_const with (n := length bs).
      * now rewrite length_seq.
      * intros k. apply length_map.
Qed.

Lemma latticeCandidates_length s r lc :
  length (latticeCandidates s r lc) = (r * (r * (r * length (basis s))))%nat.
Proof. unfold latticeCandidates. apply candidateAtoms_length. Qed.

Lemma latticeCandidates_single_cell s lc :
  latticeCandidates s 1 lc
  = map (fun b =>
           MkAtom (cellPosition (vectors s) (orDefaultA lc s)
                     (latticeOffset 1 (orDefaultA lc s)) 0 0 0 b) true)
        (basis s).
Proof.
  unfold latticeCandidates, candidateAtoms. cbn [seq flat_map].
  rewrite !app_nil_r. reflexivity.
Qed.

(** C8 (as the code has it).  With [repeat = 1] [generateLattice] returns at
    most [|basis|] atoms, no two of them with the same quantised position;
    it returns exactly [|basis|] atoms if and only if the positions computed
    for the basis entries have pairwise distinct quantised keys. *)
Theorem generateLattice_single_cell :
  forall (structure : Structure) (latticeConstant : option num),
    let a := orDefaultA latticeConstant structure in
    let atoms := generateLattice structure 1 latticeConstant in
    (length atoms <= length (basis structure))%nat
    /\ NoDup (map atomKey atoms)
    /\ (length atoms = length (basis structure) <->
        NoDup (map (fun b => keyOf (cellPosition (vectors structure) a
                                      (latticeOffset 1 a) 0 0 0 b))
                   (basis structure))).
Proof.
  intros s lc a atoms. subst a atoms.
  assert (Hlen : length (latticeCandidates s 1 lc) = length (basis s))
    by (rewrite latticeCandidates_length; lia).
  assert (Hkeys : map atomKey (latticeCandidates s 1 lc)
                  = map (fun b => keyOf (cellPosition (vectors s)
                                           (orDefaultA lc s)
                                           (latticeOffset 1 (orDefaultA lc s))
                                           0 0 0 b)) (basis s)).
  { rewrite latticeCandidates_single_cell, map_map. reflexivity. }
  split; [|split].
  - rewrite <- Hlen. apply generateLattice_length_le.
  - apply generateLattice_keys_NoDup.
  - rewrite <- Hkeys, <- Hlen. split.
    + apply generateLattice_full_length.
    + intros ND. now rewrite generateLattice_distinct.
Qed.

Ltac floor_eval :=
  repeat match goal with
    | |- context [Zfloor ?x] =>
        first [ rewrite (Zfloor_eq (-1) x) by (cbn [INR]; lra)
              | rewrite (Zfloor_eq 0 x) by (cbn [INR]; lra)
              | rewrite (Zfloor_eq 1 x) by (cbn [INR]; lra) ]
    end.

Ltac key_eval :=
  unfold atomKey, keyOf, cellPosition, latticeOffset, tolerance;
  cbn [position v0 v1 v2 a1v a2v a3v nmul nadd nsub nneg];
  rewrite !ndiv_fin by lra;
  cbn [nadd nneg]; rewrite !ndiv_fin by lra; cbn [mathRound].

(** C8 (counterexample).  Body-centred cubic with lattice constant 0.001:
    both basis entries round to the key 0,0,0, and one atom is returned for
    a basis of two. *)
Lemma generateLattice_bcc_tiny_constant :
  length (basis bcc) = 2%nat /\
  length (generateLattice bcc 1 (Some (Fin 0.001))) = 1%nat.
Proof.
  split; [reflexivity|].
  rewrite generateLattice_candidates, latticeCandidates_single_cell.
  rewrite orDefaultA_nonzero by lra.
  cbn [basis bcc map fold_left vectors].
  unfold pushAtom at 2. cbn [has existsb negb].
  unfold pushAtom.
  replace (atomKey (MkAtom (cellPosition cubicVectors 0.001
                              (latticeOffset 1 0.001) 0 0 0
                              (V3 0.5 0.5 0.5)) true))
    with (atomKey (MkAtom (cellPosition cubicVectors 0.001
                             (latticeOffset 1 0.001) 0 0 0 (V3 0 0 0)) true)).
  - cbn [app has existsb]. rewrite (proj2 (key_eqb_eq _ _) eq_refl).
    reflexivity.
  - unfold cubicVectors. key_eval. floor_eval. reflexivity.
Qed.

Lemma pow3_le r1 r2 n :
  (r1 <= r2)%nat -> (r1 * (r1 * (r1 * n)) <= r2 * (r2 * (r2 * n)))%nat.
Proof.
  intros H. repeat apply Nat.mul_le_mono; auto.
Qed.

(** C9 (as the code has it).  When the candidates generated for the larger
    repeat count [r2] have pairwise distinct quantised keys, all
    [r2^3 * |basis|] of them are kept, and the atom count at [r2] is at least
    the atom count at any smaller repeat count [r1]. *)
Theorem generateLattice_count_monotone_without_collisions :
  forall (structure : Structure) (latticeConstant : option num)
         (r1 r2 : nat),
    (1 <= r1)%nat -> (r1 <= r2)%nat ->
    NoDup (map atomKey (latticeCandidates structure r2 latticeConstant)) ->
    length (generateLattice structure r2 latticeConstant)
    = (r2 * (r2 * (r2 * length (basis structure))))%nat
    /\ (length (generateLattice structure r1 latticeConstant)
        <= length (generateLattice structure r2 latticeConstant))%nat.
Proof.
  intros s lc r1 r2 _ Hle ND.
  assert (E : length (generateLattice s r2 lc)
              = (r2 * (r2 * (r2 * length (basis s))))%nat).
  { rewrite generateLattice_distinct by exact ND.
    apply latticeCandidates_length. }
  split; [exact E|].
  rewrite E.
  eapply Nat.le_trans; [apply generateLattice_length_le|].
  rewrite latticeCandidates_length. now apply pow3_le.
Qed.

(** *** A lattice whose atom count decreases *)

Lemma INR_bound_3 i : (i < 3)%nat -> 0 <= INR i <= 2.
Proof.
  intros H. split; [apply pos_INR|].
  replace 2 with (INR 2) by (cbn; lra). apply le_INR. lia.
Qed.

Lemma quarterCubic_key_2 i j k e :
  (i < 2)%nat -> (j < 2)%nat -> (k < 2)%nat ->
  atomKey (MkAtom (cellPosition quarterVectors 0.012
                     (latticeOffset 2 0.012) i j k (V3 0 0 0)) e)
  = (quarterKey2 i, quarterKey2 j, quarterKey2 k).
Proof.
  intros Hi Hj Hk. unfold quarterVectors, quarterKey2.
  destruct i as [|[|i]]; [| |lia]; destruct j as [|[|j]]; [| |lia| | |lia];
    (destruct k as [|[|k]]; [| |lia]);
    key_eval; floor_eval; reflexivity.
Qed.

Lemma quarterCubic_key_3 i j k e :
  (i < 3)%nat -> (j < 3)%nat -> (k < 3)%nat ->
  atomKey (MkAtom (cellPosition quarterVectors 0.012
                     (latticeOffset 3 0.012) i j k (V3 0 0 0)) e)
  = (RInt (-1), RInt (-1), RInt (-1)).
Proof.
  intros Hi Hj Hk. unfold quarterVectors.
  apply INR_bound_3 in Hi, Hj, Hk.
  key_eval.
  rewrite !(Zfloor_eq (-1)) by (cbn [INR]; lra). reflexivity.
Qed.

Lemma candidateAtoms_In V bs a off r c :
  In c (candidateAtoms V bs a off r) ->
  exists i j k b,
    (i < r)%nat /\ (j < r)%nat /\ (k < r)%nat /\ In b bs
    /\ c = MkAtom (cellPosition V a off i j k b) (edgeFlag r i j k).
Proof.
  unfold candidateAtoms. intros H.
  apply in_flat_map in H as (i & Hi & H).
  apply in_flat_map in H as (j & Hj & H).
  apply in_flat_map in H as (k & Hk & H).
  apply in_map_iff in H as (b & E & Hb).
  apply in_seq in Hi, Hj, Hk.
  exists i, j, k, b. repeat split; auto; lia.
Qed.

(** Candidates that all share one key leave a single atom. *)
Lemma pushAll_same_key l k0 :
  l <> [] -> (forall c, In c l -> atomKey c = k0) ->
  length (fst (fold_left pushAtom l ([], []))) = 1%nat.
Proof.
  intros Hne Hk. destruct l as [|c l]; [congruence|].
  cbn [fold_left]. unfold pushAtom at 2. cbn [has existsb negb app].
  rewrite pushAll_seen; [reflexivity|].
  intros c' Hc'. left. rewrite (Hk c), (Hk c'); auto; [now right | now left].
Qed.

Lemma quarterCubic_keys_2_NoDup :
  NoDup (map atomKey (latticeCandidates quarterCubic 2 None)).
Proof.
  unfold latticeCandidates, candidateAtoms.
  cbn [orDefaultA quarterCubic defaultA vectors basis seq flat_map map app].
  rewrite !quarterCubic_key_2 by lia.
  unfold quarterKey2.
  cbn [Z.of_nat Z.sub Z.add Z.opp Z.pos_sub Pos.of_succ_nat].
  repeat constructor; cbn [In]; intuition discriminate.
Qed.

(** C9 (counterexample).  A one-atom cubic cell a quarter of the lattice
    constant wide, with lattice constant 0.012: repeat 2 yields 8 atoms,
    repeat 3 yields 1. *)
Lemma generateLattice_count_decreases :
  length (generateLattice quarterCubic 2 None) = 8%nat /\
  length (generateLattice quarterCubic 3 None) = 1%nat.
Proof.
  split.
  - rewrite generateLattice_distinct.
    + rewrite latticeCandidates_length. reflexivity.
    + apply quarterCubic_keys_2_NoDup.
  - rewrite generateLattice_candidates.
    apply pushAll_same_key with (k0 := (RInt (-1), RInt (-1), RInt (-1))).
    + intros E. apply (f_equal (@length Atom)) in E.
      rewrite latticeCandidates_length in E. discriminate E.
    + intros c Hc. unfold latticeCandidates in Hc.
      apply candidateAtoms_In in Hc
        as (i & j & k & b & Hi & Hj & Hk & Hb & ->).
      cbn [quarterCubic basis In] in Hb. destruct Hb as [<- | []].
      cbn [orDefaultA quarterCubic defaultA vectors].
      now apply quarterCubic_key_3.
Qed.

Lemma generateLattice_count_monotone_without_collisions_witness :
  (1 <= 1)%nat /\ (1 <= 2)%nat /\
  NoDup (map atomKey (latticeCandidates quarterCubic 2 None)) /\
  (length (generateLattice quarterCubic 1 None)
   <= length (generateLattice quarterCubic 2 None))%nat.
Proof.
  assert (H1 : (1 <= 1)%nat) by lia.
  assert (H2 : (1 <= 2)%nat) by lia.
  pose proof quarterCubic_keys_2_NoDup as ND.
  split; [exact H1|]. split; [exact H2|]. split; [exact ND|].
  exact (proj2 (generateLattice_count_monotone_without_collisions
                  quarterCubic None 1 2 H1 H2 ND)).
Defined.

(** ** clipPlaneToBox *)

Lemma clipIter_clipEdge vs n d output i :
  clipIter vs n d output i
  = output ++ clipEdge (nth i vs noVec)
                (nth ((i + 1) mod length vs) vs noVec) n d.
Proof.
  unfold clipIter, clipEdge, inside.
  destruct (nleb (dot (nth i vs noVec) n) (d + Fin 0.001));
    destruct (nleb (dot (nth ((i + 1) mod length vs) vs noVec) n)
                (d + Fin 0.001)); cbn [negb];
    rewrite <- ?app_assoc, ?app_nil_r; reflexivity.
Qed.

Lemma clipPolygonByPlane_edges vs n d :
  clipPolygonByPlane vs n d
  = flat_map (fun i => clipEdge (nth i vs noVec)
                         (nth ((i + 1) mod length vs) vs noVec) n d)
             (seq 0 (length vs)).
Proof.
  unfold clipPolygonByPlane. destruct vs as [|v vs]; [reflexivity|].
  cbn [length Nat.eqb].
  rewrite fold_left_push with
    (g := fun i => clipEdge (nth i (v :: vs) noVec)
                     (nth ((i + 1) mod length (v :: vs)) (v :: vs) noVec) n d).
  - reflexivity.
  - intros acc i. apply clipIter_clipEdge.
Qed.

Lemma flat_map_singleton_nth {A : Type} (d : A) (l : list A) :
  flat_map (fun i => [nth i l d]) (seq 0 (length l)) = l.
Proof.
  induction l as [|x l IH]; [reflexivity|].
  cbn [length seq flat_map nth app]. f_equal.
  rewrite <- seq_shift, flat_map_concat_map, map_map.
  rewrite <- flat_map_concat_map. exact IH.
Qed.

Lemma flat_map_eq_in {A B : Type} (f g : A -> list B) l :
  (forall x, In x l -> f x = g x) -> flat_map f l = flat_map g l.
Proof.
  induction l as [|x l IH]; intros H; cbn [flat_map]; [reflexivity|].
  rewrite H by (now left). f_equal. apply IH. intros y Hy. apply H. now right.
Qed.

Lemma flat_map_nil {A B : Type} (l : list A) :
  flat_map (fun _ : A => @nil B) l = [].
Proof. induction l; cbn; auto. Qed.

(** A polygon whose vertices are all kept is returned unchanged. *)
Lemma clipPolygonByPlane_all_inside vs n d :
  Forall (fun v => inside v n d = true) vs ->
  clipPolygonByPlane vs n d = vs.
Proof.
  intros Hall. rewrite clipPolygonByPlane_edges.
  transitivity (flat_map (fun i => [nth i vs noVec]) (seq 0 (length vs)));
    [|apply flat_map_singleton_nth].
  apply flat_map_eq_in. intros i Hi. apply in_seq in Hi.
  rewrite Forall_forall in Hall. unfold clipEdge.
  rewrite (Hall (nth i vs noVec)) by (apply nth_In; lia).
  rewrite (Hall (nth ((i + 1) mod length vs) vs noVec))
    by (apply nth_In, Nat.mod_upper_bound; lia).
  reflexivity.
Qed.

(** A polygon none of whose vertices is kept is clipped away. *)
Lemma clipPolygonByPlane_all_outside vs n d :
  Forall (fun v => inside v n d = false) vs ->
  clipPolygonByPlane vs n d = [].
Proof.
  intros Hall. rewrite clipPolygonByPlane_edges.
  transitivity (flat_map (fun _ : nat => @nil vec3) (seq 0 (length vs)));
    [|apply flat_map_nil].
  apply flat_map_eq_in. intros i Hi. apply in_seq in Hi.
  rewrite Forall_forall in Hall. unfold clipEdge.
  rewrite (Hall (nth i vs noVec)) by (apply nth_In; lia).
  rewrite (Hall (nth ((i + 1) mod length vs) vs noVec))
    by (apply nth_In, Nat.mod_upper_bound; lia).
  reflexivity.
Qed.

Ltac vec_solve :=
  repeat match goal with
    | |- @eq (list vec3) (_ :: _) (_ :: _) => f_equal
    | |- @eq (list vec3) [] [] => reflexivity
    | |- @eq vec3 (V3 _ _ _) (V3 _ _ _) => f_equal
    | |- @eq num (Fin _) (Fin _) => f_equal
    | |- @eq R _ _ => first [lra | field; lra]
    end.

Ltac clip_eval :=
  rewrite clipPolygonByPlane_edges;
  cbn [length seq flat_map nth Nat.add Nat.modulo Nat.divmod fst snd
       Nat.sub app];
  unfold clipEdge, inside, intersectEdgePlane, dot;
  cbn [v0 v1 v2]; neval; cbn [app]; vec_solve.

Lemma normalize_unit (x y z : R) :
  x * x + y * y + z * z = 1 -> normalize (V3 x y z) = V3 x y z.
Proof.
  intros H. unfold normalize, magnitude. cbn [v0 v1 v2 nmul nadd].
  rewrite H. cbn [nsqrt]. rewrite Rltb_false by lra. rewrite sqrt_1.
  neval. vec_solve.
Qed.

Lemma tangents_z : tangents (V3 0 0 1) = (V3 0 1 0, V3 (-1) 0 0).
Proof.
  unfold tangents. cbn [v0 nabs]. rewrite Rabs_R0. neval.
  assert (E1 : cross (V3 0 0 1) (V3 1 0 0) = V3 0 1 0)
    by (unfold cross; cbn [v0 v1 v2]; neval; vec_solve).
  rewrite E1, normalize_unit by lra.
  assert (E2 : cross (V3 0 0 1) (V3 0 1 0) = V3 (-1) 0 0)
    by (unfold cross; cbn [v0 v1 v2]; neval; vec_solve).
  rewrite E2, normalize_unit by lra. reflexivity.
Qed.

Lemma initialQuad_z (d b : R) :
  initialQuad (V3 0 0 1) d b
  = [V3 (Fin (3 * b)) (Fin (- (3 * b))) d;
     V3 (Fin (3 * b)) (Fin (3 * b)) d;
     V3 (Fin (- (3 * b))) (Fin (3 * b)) d;
     V3 (Fin (- (3 * b))) (Fin (- (3 * b))) d].
Proof.
  unfold initialQuad. rewrite tangents_z.
  unfold add, scale. cbn [v0 v1 v2]. neval. vec_solve.
Qed.

Lemma clip_stage1 :
  clipPolygonByPlane
    [V3 15 (-15) 0; V3 15 15 0; V3 (-15) 15 0; V3 (-15) (-15) 0]
    (V3 1 0 0) 5
  = [V3 5 15 0; V3 (-15) 15 0; V3 (-15) (-15) 0; V3 5 (-15) 0].
Proof. clip_eval. Qed.

Lemma clip_stage2 :
  clipPolygonByPlane
    [V3 5 15 0; V3 (-15) 15 0; V3 (-15) (-15) 0; V3 5 (-15) 0]
    (V3 (-1) 0 0) 5
  = [V3 5 15 0; V3 (-5) 15 0; V3 (-5) (-15) 0; V3 5 (-15) 0].
Proof. clip_eval. Qed.

Lemma clip_stage3 :
  clipPolygonByPlane
    [V3 5 15 0; V3 (-5) 15 0; V3 (-5) (-15) 0; V3 5 (-15) 0]
    (V3 0 1 0) 5
  = [V3 (-5) 5 0; V3 (-5) (-15) 0; V3 5 (-15) 0; V3 5 5 0].
Proof. clip_eval. Qed.

Lemma clip_stage4 :
  clipPolygonByPlane
    [V3 (-5) 5 0; V3 (-5) (-15) 0; V3 5 (-15) 0; V3 5 5 0]
    (V3 0 (-1) 0) 5
  = square5.
Proof. unfold square5. clip_eval. Qed.

Ltac all_inside :=
  apply clipPolygonByPlane_all_inside;
  repeat (constructor;
          [unfold inside, dot; cbn [v0 v1 v2]; neval; reflexivity|]);
  constructor.

Lemma clip_stage5 : clipPolygonByPlane square5 (V3 0 0 1) 5 = square5.
Proof. all_inside. Qed.

Lemma clip_stage6 : clipPolygonByPlane square5 (V3 0 0 (-1)) 5 = square5.
Proof. all_inside. Qed.

Lemma clipPlaneToBox_z_0_5 :
  clipPlaneToBox (V3 0 0 1) 0 5 = Clipped square5 square5.
Proof.
  unfold clipPlaneToBox. rewrite initialQuad_z.
  replace [V3 (Fin (3 * 5)) (Fin (- (3 * 5))) 0;
           V3 (Fin (3 * 5)) (Fin (3 * 5)) 0;
           V3 (Fin (- (3 * 5))) (Fin (3 * 5)) 0;
           V3 (Fin (- (3 * 5))) (Fin (- (3 * 5))) 0]
    with [V3 15 (-15) 0; V3 15 15 0; V3 (-15) 15 0; V3 (-15) (-15) 0]
    by vec_solve.
  unfold clipPlanes. cbn [clipLoop cp_normal cp_d].
  rewrite clip_stage1. cbn [length Nat.ltb Nat.leb].
  rewrite clip_stage2. cbn [length Nat.ltb Nat.leb].
  rewrite clip_stage3. cbn [length Nat.ltb Nat.leb].
  rewrite clip_stage4. cbn [length Nat.ltb Nat.leb square5].
  fold square5.
  rewrite clip_stage5. cbn [length Nat.ltb Nat.leb square5].
  fold square5.
  rewrite clip_stage6. cbn [length Nat.ltb Nat.leb square5].
  reflexivity.
Qed.

Lemma square5_NoDup : NoDup square5.
Proof.
  unfold square5.
  repeat constructor; cbn [In]; intros H;
    repeat (destruct H as [H | H]; [inversion H; lra|]); exact H.
Qed.

(** C6 (as the code has it).  For the plane [z = 0] and a box of half-extent
    5, [clipPlaneToBox] returns the square with corners (-5,5,0), (-5,-5,0),
    (5,-5,0), (5,5,0): four distinct vertices, all with [|x| <= 5],
    [|y| <= 5], [z = 0].  The returned edge loop is this same sequence, with
    no vertex repeated; the loop is closed by the scene, which appends a copy
    of the first vertex to it. *)
Theorem clipPlaneToBox_axis_plane_square :
  let r := clipPlaneToBox (V3 0 0 1) 0 5 in
  vertices r = square5
  /\ edgeLoop r = vertices r
  /\ NoDup (edgeLoop r)
  /\ length (edgeLoop r) = 4%nat
  /\ Forall (fun v => nleb (nabs (v0 v)) 5 = true
                      /\ nleb (nabs (v1 v)) 5 = true /\ v2 v = Fin 0)
            (vertices r)
  /\ closeLoop (edgeLoop r) = square5 ++ [V3 (-5) 5 0].
Proof.
  cbv zeta. rewrite clipPlaneToBox_z_0_5. cbn [vertices edgeLoop].
  split; [reflexivity|]. split; [reflexivity|].
  split; [apply square5_NoDup|]. split; [reflexivity|]. split.
  - unfold square5.
    repeat (constructor;
            [cbn [v0 v1 v2 nabs nleb];
             repeat split; try reflexivity; apply Rleb_true;
             unfold Rabs; destruct (Rcase_abs _); lra|]).
    constructor.
  - reflexivity.
Qed.

(** C6 (counterexample).  The edge loop returned for the plane [z = 0] and
    half-extent 5 is not closed: its last vertex (5,5,0) is not its first
    vertex (-5,5,0). *)
Lemma clipPlaneToBox_edgeLoop_not_closed :
  let loop := edgeLoop (clipPlaneToBox (V3 0 0 1) 0 5) in
  nth 0 loop noVec = V3 (-5) 5 0
  /\ last loop noVec = V3 5 5 0
  /\ last loop noVec <> nth 0 loop noVec.
Proof.
  cbv zeta. rewrite clipPlaneToBox_z_0_5. cbn [edgeLoop square5 nth last].
  split; [reflexivity|]. split; [reflexivity|].
  intros H. inversion H. lra.
Qed.

(** * Further properties of the kernel *)

(** ** Atoms on a plane *)

(** The test of the loop body of [atomsOnPlane]. *)
Lemma atomsOnPlane_filter atoms n o t :
  atomsOnPlane atoms n o t
  = filter (fun i => nleb (nabs (distanceToPlane (posAt atoms i) n o)) t)
           (seq 0 (length atoms)).
Proof.
  unfold atomsOnPlane.
  rewrite fold_left_push with
    (g := fun i =>
            if nleb (nabs (distanceToPlane (posAt atoms i) n o)) t
            then [i] else []).
  - cbn [app].
    induction (seq 0 (length atoms)) as [|i l IH]; [reflexivity|].
    cbn [flat_map filter]. rewrite IH.
    now destruct (nleb (nabs (distanceToPlane (posAt atoms i) n o)) t).
  - intros acc i. unfold posAt.
    destruct (nleb _ t); [reflexivity | now rewrite app_nil_r].
Qed.

(** X7. [atomsOnPlane] returns exactly the indices of the atoms whose
    distance to the plane is at most the tolerance in absolute value, each
    index once. *)
Theorem atomsOnPlane_indices :
  forall (atoms : list Atom) (planeNormal0 : vec3) (offset tol : num),
    (forall i,
        In i (atomsOnPlane atoms planeNormal0 offset tol) <->
        (i < length atoms)%nat
        /\ nleb (nabs (distanceToPlane (posAt atoms i) planeNormal0 offset))
                tol = true)
    /\ NoDup (atomsOnPlane atoms planeNormal0 offset tol)
    /\ (length (atomsOnPlane atoms planeNormal0 offset tol)
        <= length atoms)%nat.
Proof.
  intros atoms n o t. rewrite atomsOnPlane_filter. split; [|split].
  - intros i. rewrite filter_In, in_seq. split; intros [H1 H2];
      (split; [lia | exact H2]).
  - apply NoDup_filter, seq_NoDup.
  - etransitivity; [apply filter_length_le|]. now rewrite length_seq.
Qed.

Lemma abs_non_finite x : non_finite x -> nabs x = PInf \/ nabs x = NaN.
Proof. destruct x; cbn; intros H; auto; contradiction. Qed.

Lemma sentinel_offset_non_finite (off : R) : non_finite (Fin off * PInf).
Proof. apply inf_times_non_finite. Qed.

Lemma sub_non_finite x y : non_finite y -> non_finite (x - y).
Proof.
  intros H. unfold nsub.
  destruct y as [r| | |]; [destruct H| | |]; destruct x; exact I.
Qed.

Lemma zero_times_non_finite d : non_finite d -> (Fin 0 * d)%num = NaN.
Proof.
  destruct d as [r| | |]; [intros []| | |]; intros _; cbn [nmul];
    unfold inf_times; now rewrite ?(Reqb_true 0 0) by reflexivity.
Qed.

Lemma NaN_vec_outside v n d :
  v0 v = NaN -> v1 v = NaN -> v2 v = NaN -> inside v n d = false.
Proof.
  intros E0 E1 E2. unfold inside, dot. rewrite E0, E1, E2. reflexivity.
Qed.

Lemma nadd_NaN_l x : (NaN + x)%num = NaN.
Proof. now destruct x. Qed.

(** X8. The "no plane" result needs no special case downstream: with the
    zero normal and the offset [offset * Infinity] no atom is reported on the
    plane and the clipped polygon is empty, whatever the atoms, the finite
    tolerance and the box. *)
Theorem sentinel_plane_selects_nothing :
  forall (atoms : list Atom) (offset tol : R) (bounds : num),
    atomsOnPlane atoms zeroVec (Fin offset * PInf) (Fin tol) = []
    /\ clipPlaneToBox zeroVec (Fin offset * PInf) bounds = Clipped [] [].
Proof.
  intros atoms off tol bounds.
  pose proof (sentinel_offset_non_finite off) as Hd.
  split.
  - rewrite atomsOnPlane_filter.
    induction (seq 0 (length atoms)) as [|i l IH]; [reflexivity|].
    cbn [filter]. rewrite IH.
    assert (E : nleb (nabs (distanceToPlane (posAt atoms i) zeroVec
                              (Fin off * PInf))) (Fin tol) = false).
    { unfold distanceToPlane.
      destruct (abs_non_finite _ (sub_non_finite
                  (dot (posAt atoms i) zeroVec) _ Hd)) as [-> | ->];
        reflexivity. }
    now rewrite E.
  - unfold clipPlaneToBox, initialQuad.
    destruct (tangents zeroVec) as [t1 t2].
    unfold clipPlanes. cbn [clipLoop cp_normal cp_d].
    rewrite clipPolygonByPlane_all_outside; [reflexivity|].
    unfold scale at 1 4 7 10. unfold zeroVec. cbn [v0 v1 v2].
    rewrite (zero_times_non_finite _ Hd).
    repeat (constructor;
            [apply NaN_vec_outside; unfold add; cbn [v0 v1 v2];
             now rewrite !nadd_NaN_l|]).
    constructor.
Qed.

(** ** Clipping a polygon by one plane *)

Lemma length_flat_map_le {A B : Type} (f : A -> list B) (n : nat) l :
  (forall x, (length (f x) <= n)%nat) ->
  (length (flat_map f l) <= length l * n)%nat.
Proof.
  intros H. induction l as [|x l IH]; cbn [flat_map length]; [lia|].
  rewrite length_app. specialize (H x). lia.
Qed.

Lemma clipEdge_length cur next n d : (length (clipEdge cur next n d) <= 2)%nat.
Proof.
  unfold clipEdge.
  destruct (inside cur n d), (inside next n d); cbn; lia.
Qed.

(** X11. One clip returns at most two vertices per input vertex, and none
    for the empty polygon. *)
Theorem clipPolygonByPlane_length :
  forall (vs : list vec3) (normal : vec3) (d : num),
    (length (clipPolygonByPlane vs normal d) <= 2 * length vs)%nat
    /\ clipPolygonByPlane [] normal d = [].
Proof.
  intros vs n d. split; [|reflexivity].
  rewrite clipPolygonByPlane_edges.
  etransitivity; [apply length_flat_map_le with (n := 2%nat)|].
  - intros i. apply clipEdge_length.
  - rewrite length_seq. lia.
Qed.

(** ** The clipped polygon *)

Lemma clipLoop_shape clips :
  forall P,
    edgeLoop (clipLoop P clips) = vertices (clipLoop P clips)
    /\ (clips <> [] ->
        vertices (clipLoop P clips) = []
        \/ (3 <= length (vertices (clipLoop P clips)))%nat).
Proof.
  induction clips as [|cp clips IH]; intros P; cbn [clipLoop].
  - split; [reflexivity | congruence].
  - destruct (Nat.ltb_spec
                (length (clipPolygonByPlane P (cp_normal cp) (cp_d cp))) 3)
      as [Hlt | Hge].
    + split; [reflexivity | now left].
    + destruct (IH (clipPolygonByPlane P (cp_normal cp) (cp_d cp)))
        as [E Hs].
      split; [exact E|]. intros _.
      destruct clips as [|cp' clips']; [right; exact Hge|].
      apply Hs. discriminate.
Qed.

Lemma clipPlaneToBox_shape_aux (planeNormal0 : vec3) (offset bounds : num) :
  edgeLoop (clipPlaneToBox planeNormal0 offset bounds)
  = vertices (clipPlaneToBox planeNormal0 offset bounds)
  /\ (vertices (clipPlaneToBox planeNormal0 offset bounds) = []
      \/ (3 <= length (vertices (clipPlaneToBox planeNormal0 offset bounds)))%nat).
Proof.
  unfold clipPlaneToBox.
  destruct (clipLoop_shape (clipPlanes bounds)
                           (initialQuad planeNormal0 offset bounds)) as [E H].
  split; [exact E|]. apply H. discriminate.
Qed.

(** X12. Whatever its arguments, [clipPlaneToBox] returns the same sequence
    as [vertices] and as [edgeLoop], and this sequence is either empty or has
    at least 3 vertices. *)
Theorem clipPlaneToBox_shape :
  forall (planeNormal0 : vec3) (offset bounds : num),
    let r := clipPlaneToBox planeNormal0 offset bounds in
    edgeLoop r = vertices r
    /\ (vertices r = [] \/ (3 <= length (vertices r))%nat).
Proof.
  intros n d b r. subst r. apply clipPlaneToBox_shape_aux.
Qed.

(** ** The lattice builder *)

Lemma pushAll_length_ge l :
  forall st,
    (length (fst st) <= length (fst (fold_left pushAtom l st)))%nat.
Proof.
  induction l as [|c l IH]; intros [atoms seen]; cbn [fold_left length fst].
  - lia.
  - unfold pushAtom at 2.
    destruct (negb (has seen (atomKey c)));
      match goal with
      | |- context [fold_left pushAtom l ?s] => specialize (IH s)
      end;
      cbn [fst] in IH; rewrite ?length_app in IH; cbn [length] in IH; lia.
Qed.

(** What the loops keep: atoms taken from the candidates, and one atom for
    every key among the candidates. *)
Lemma pushAll_kept l :
  forall atoms seen,
    seen = map atomKey atoms ->
    let out := fst (fold_left pushAtom l (atoms, seen)) in
    (forall c, In c out -> In c atoms \/ In c l)
    /\ (forall c, In c atoms \/ In c l ->
                  exists c', In c' out /\ atomKey c' = atomKey c).
Proof.
  induction l as [|c l IH]; intros atoms seen Hs; cbv zeta; cbn [fold_left].
  - cbn [fst]. split; [auto|].
    intros c [H | []]. now exists c.
  - destruct (has seen (atomKey c)) eqn:Hh.
    + assert (E : pushAtom (atoms, seen) c = (atoms, seen))
        by (unfold pushAtom; now rewrite Hh).
      rewrite E.
      destruct (IH atoms seen Hs) as [H1 H2]. split.
      * intros c' Hc'. destruct (H1 c' Hc'); [now left | right; now right].
      * intros c' [Hc' | [<- | Hc']].
        -- apply H2. now left.
        -- apply has_In in Hh. rewrite Hs in Hh.
           apply in_map_iff in Hh as (c0 & E0 & H0).
           destruct (H2 c0 (or_introl H0)) as (c1 & Hc1 & E1).
           exists c1. split; [exact Hc1 | congruence].
        -- apply H2. now right.
    + assert (E : pushAtom (atoms, seen) c
                  = (atoms ++ [c], seen ++ [atomKey c]))
        by (unfold pushAtom; now rewrite Hh).
      rewrite E.
      destruct (IH (atoms ++ [c]) (seen ++ [atomKey c])) as [H1 H2].
      { rewrite map_app, Hs. reflexivity. }
      split.
      * intros c' Hc'. destruct (H1 c' Hc') as [H | H].
        -- apply in_app_or in H as [H | [<- | []]];
             [now left | right; now left].
        -- right. now right.
      * intros c' [Hc' | [<- | Hc']].
        -- apply H2. left. apply in_or_app. now left.
        -- apply H2. left. apply in_or_app. right. now left.
        -- apply H2. now right.
Qed.

(** X14. Deduplication keeps one atom per quantised key: every returned
    atom is one of the candidates of the loops, every candidate has its key
    among the returned atoms, and no two returned atoms share a key or a
    position. *)
Theorem generateLattice_one_atom_per_key :
  forall (structure : Structure) (repeat : nat)
         (latticeConstant : option num),
    let atoms := generateLattice structure repeat latticeConstant in
    let candidates := latticeCandidates structure repeat latticeConstant in
    (forall c, In c atoms -> In c candidates)
    /\ (forall c, In c candidates ->
                  exists c', In c' atoms /\ atomKey c' = atomKey c)
    /\ NoDup (map atomKey atoms)
    /\ NoDup (map position atoms).
Proof.
  intros s r lc atoms candidates. subst atoms candidates.
  pose proof (generateLattice_keys_NoDup s r lc) as ND.
  rewrite generateLattice_candidates in *.
  destruct (pushAll_kept (latticeCandidates s r lc) [] [] eq_refl)
    as [H1 H2].
  split; [|split; [|split]].
  - intros c Hc. destruct (H1 c Hc) as [[] | H]. exact H.
  - intros c Hc. apply H2. now right.
  - exact ND.
  - unfold atomKey in ND. rewrite <- (map_map position keyOf) in ND.
    eapply NoDup_map_inv. exact ND.
Qed.

(** X15. [generateLattice] returns no atom exactly when the repeat count is
    0 or the basis is empty. *)
Theorem generateLattice_empty_iff :
  forall (structure : Structure) (repeat : nat)
         (latticeConstant : option num),
    generateLattice structure repeat latticeConstant = []
    <-> repeat = 0%nat \/ basis structure = [].
Proof.
  intros s r lc. rewrite generateLattice_candidates.
  pose proof (latticeCandidates_length s r lc) as Hlen.
  destruct (latticeCandidates s r lc) as [|c l] eqn:E.
  - cbn [fold_left fst]. split; [intros _|reflexivity].
    cbn [length] in Hlen. destruct r as [|r]; [now left|].
    right. destruct (basis s); [reflexivity|]. cbn [length] in Hlen. lia.
  - split.
    + intros H. exfalso. apply (f_equal (@length Atom)) in H.
      cbn [fold_left] in H. unfold pushAtom at 2 in H.
      cbn [has existsb negb app] in H.
      pose proof (pushAll_length_ge l ([c], [atomKey c])) as Hge.
      cbn [fst length] in Hge, H. lia.
    + intros [-> | Hb]; cbn [length] in Hlen; [cbn in Hlen; lia|].
      rewrite Hb in Hlen. cbn [length] in Hlen. lia.
Qed.

Lemma edgeFlag_small r i j k :
  (r <= 2)%nat -> (i < r)%nat -> edgeFlag r i j k = true.
Proof.
  intros Hr Hi. unfold edgeFlag.
  destruct i as [|[|i]]; [reflexivity| |lia].
  assert (r = 2%nat) as -> by lia. cbn. now rewrite !orb_true_r.
Qed.

(** X16. With a repeat count of 1 or 2 every returned atom is flagged
    [isEdge]. *)
Theorem generateLattice_all_edge_small_repeat :
  forall (structure : Structure) (repeat : nat)
         (latticeConstant : option num),
    (repeat <= 2)%nat ->
    Forall (fun atom => isEdge atom = true)
           (generateLattice structure repeat latticeConstant).
Proof.
  intros s r lc Hr. apply Forall_forall. intros c Hc.
  rewrite generateLattice_candidates in Hc.
  destruct (pushAll_kept (latticeCandidates s r lc) [] [] eq_refl)
    as [H1 _].
  destruct (H1 c Hc) as [[] | H].
  unfold latticeCandidates in H.
  apply candidateAtoms_In in H as (i & j & k & b & Hi & _ & _ & _ & ->).
  cbn [isEdge]. now apply edgeFlag_small.
Qed.

Lemma generateLattice_all_edge_small_repeat_witness :
  (2 <= 2)%nat /\
  Forall (fun atom => isEdge atom = true) (generateLattice fcc 2 None).
Proof.
  assert (H : (2 <= 2)%nat) by lia.
  split; [exact H|].
  exact (generateLattice_all_edge_small_repeat fcc 2 None H).
Defined.

(** ** Bonds of a generated lattice *)

Lemma NoDup_flat_map_disjoint {A B : Type} (f : A -> list B) l :
  NoDup l ->
  (forall x, In x l -> NoDup (f x)) ->
  (forall x y b, In x l -> In y l -> x <> y -> In b (f x) -> In b (f y) -> False) ->
  NoDup (flat_map f l).
Proof.
  induction l as [|x l IH]; intros ND Hf Hd; cbn [flat_map];
    [constructor|].
  inversion ND as [|? ? Hx ND']; subst.
  apply NoDup_app.
  - apply Hf. now left.
  - apply IH; [exact ND' | |].
    + intros y Hy. apply Hf. now right.
    + intros y z b Hy Hz. apply Hd; now right.
  - intros b Hb Hb'. apply in_flat_map in Hb' as (y & Hy & Hb').
    apply (Hd x y b); [now left | now right | | exact Hb | exact Hb'].
    intros ->. contradiction.
Qed.

Lemma posAt_inj atoms i j :
  NoDup (map position atoms) ->
  (i < length atoms)%nat -> (j < length atoms)%nat ->
  posAt atoms i = posAt atoms j -> i = j.
Proof.
  intros ND Hi Hj E. unfold posAt in E.
  rewrite <- !(map_nth position) in E.
  rewrite NoDup_nth in ND. apply ND; rewrite ?length_map; auto.
  exact E.
Qed.

Lemma bondsWithin_NoDup atoms m :
  NoDup (map position atoms) -> NoDup (bondsWithin atoms m).
Proof.
  intros ND. rewrite bondsWithin_flat.
  apply NoDup_flat_map_disjoint.
  - apply seq_NoDup.
  - intros i Hi. apply in_seq in Hi.
    apply NoDup_flat_map_disjoint.
    + apply seq_NoDup.
    + intros j _. destruct (bondTest _ _ m); repeat constructor. intros [].
    + intros j j' b Hj Hj' Hne Hb Hb'. apply in_seq in Hj, Hj'.
      destruct (bondTest (posAt atoms i) (posAt atoms j) m); [|destruct Hb].
      destruct (bondTest (posAt atoms i) (posAt atoms j') m); [|destruct Hb'].
      destruct Hb as [<- | []]. destruct Hb' as [E | []].
      inversion E as [E']. apply Hne. symmetry.
      apply (posAt_inj atoms); auto; lia.
  - intros i i' b Hi Hi' Hne Hb Hb'. apply in_seq in Hi, Hi'.
    apply in_flat_map in Hb as (j & Hj & Hb).
    apply in_flat_map in Hb' as (j' & Hj' & Hb').
    destruct (bondTest (posAt atoms i) (posAt atoms j) m); [|destruct Hb].
    destruct (bondTest (posAt atoms i') (posAt atoms j') m); [|destruct Hb'].
    destruct Hb as [<- | []]. destruct Hb' as [E | []].
    inversion E as [[E1 E2]]. apply Hne. symmetry.
    apply (posAt_inj atoms); auto; lia.
Qed.

Lemma bondsWithin_one_direction atoms m p q :
  NoDup (map position atoms) ->
  In (MkBond p q) (bondsWithin atoms m) -> ~ In (MkBond q p) (bondsWithin atoms m).
Proof.
  intros ND H H'.
  apply bondsWithin_In in H as (i & j & Hij & _ & E).
  apply bondsWithin_In in H' as (i' & j' & Hij' & _ & E').
  inversion E; inversion E'; subst.
  assert (i' = j) by (apply (posAt_inj atoms); auto; lia).
  assert (j' = i) by (apply (posAt_inj atoms); auto; lia).
  lia.
Qed.

(** X18. The bonds computed for a generated lattice contain no bond twice
    and no bond in both directions, whatever the cutoff. *)
Theorem generateBonds_of_lattice_NoDup :
  forall (structure : Structure) (repeat : nat)
         (latticeConstant : option num)
         (structure' : Structure) (latticeConstant' : option num),
    let atoms := generateLattice structure repeat latticeConstant in
    let bonds := generateBonds atoms structure' latticeConstant' in
    NoDup bonds
    /\ (forall p q, In (MkBond p q) bonds -> ~ In (MkBond q p) bonds).
Proof.
  intros s r lc s' lc' atoms bonds. subst atoms bonds.
  unfold generateBonds.
  assert (ND : NoDup (map position (generateLattice s r lc))).
  { pose proof (generateLattice_keys_NoDup s r lc) as ND.
    unfold atomKey in ND. rewrite <- (map_map position keyOf) in ND.
    eapply NoDup_map_inv. exact ND. }
  split.
  - now apply bondsWithin_NoDup.
  - intros p q. now apply bondsWithin_one_direction.
Qed.

(** ** [Math.max] and [Math.min] *)

Lemma nmax_fin x y : nmax (Fin x) (Fin y) = Fin (Rmax x y).
Proof.
  unfold nmax, Rmax. cbn [nleb]. unfold Rleb.
  now destruct (Rle_dec x y).
Qed.

Lemma nmin_fin x y : nmin (Fin x) (Fin y) = Fin (Rmin x y).
Proof.
  unfold nmin, Rmin. cbn [nleb]. unfold Rleb.
  now destruct (Rle_dec x y).
Qed.

(** ** The index field of the sidebar *)

Lemma clamp_fin (y : R) :
  nmax (Fin (-4)) (nmin (Fin 4) (Fin y)) = Fin (Rmax (-4) (Rmin 4 y))
  /\ -4 <= Rmax (-4) (Rmin 4 y) <= 4
  /\ (-4 <= y <= 4 -> Rmax (-4) (Rmin 4 y) = y).
Proof.
  rewrite nmin_fin, nmax_fin. split; [reflexivity|]. split.
  - split; [apply Rmax_l|]. apply Rmax_lub; [lra | apply Rmin_l].
  - intros Hy. rewrite Rmin_right by lra. now rewrite Rmax_right by lra.
Qed.

(** X22. Whatever [parseInt] returned, the index stored is a finite number
    between -4 and 4; it is the parsed number itself when that lies between
    -4 and 4, and 0 when nothing could be parsed (NaN). *)
Theorem clampIndex_range :
  forall parsed : num,
    (exists x : R, clampIndex parsed = Fin x /\ -4 <= x <= 4)
    /\ (forall y : R, -4 <= y <= 4 -> parsed = Fin y -> clampIndex parsed = Fin y)
    /\ (parsed = NaN -> clampIndex parsed = Fin 0).
Proof.
  intros p. split; [|split].
  - unfold clampIndex. destruct p as [y| | |]; cbn [truthy].
    + destruct (negb (Reqb y 0)).
      * destruct (clamp_fin y) as (E & H & _). rewrite E. eauto.
      * destruct (clamp_fin 0) as (E & H & _). rewrite E. eauto.
    + exists 4. split; [|lra]. cbn [nmin nleb]. rewrite nmax_fin.
      f_equal. apply Rmax_right. lra.
    + exists (-4). split; [reflexivity | lra].
    + destruct (clamp_fin 0) as (E & H & _). rewrite E. eauto.
  - intros y Hy ->. unfold clampIndex. cbn [truthy].
    destruct (Req_dec_T y 0) as [-> | Hne].
    + rewrite Reqb_true by reflexivity. cbn [negb].
      destruct (clamp_fin 0) as (E & _ & H). rewrite E. f_equal. apply H. lra.
    + rewrite Reqb_false by assumption. cbn [negb].
      destruct (clamp_fin y) as (E & _ & H). rewrite E. f_equal. now apply H.
  - intros ->. unfold clampIndex. cbn [truthy].
    destruct (clamp_fin 0) as (E & _ & H). rewrite E. f_equal. apply H. lra.
Qed.

(** ** The plane drawn by the scene *)

Lemma isZero_true a : isZero a = true -> a = Fin 0.
Proof.
  destruct a as [x| | |]; cbn [isZero]; try discriminate.
  unfold Reqb. destruct (Req_dec_T x 0) as [-> |]; [reflexivity | discriminate].
Qed.

Lemma fanPositions_length vs :
  length (fanPositions vs) = (9 * (length vs - 2))%nat.
Proof.
  unfold fanPositions.
  rewrite fold_left_push with
    (g := fun i => [v0 (nth 0 vs noVec); v1 (nth 0 vs noVec); v2 (nth 0 vs noVec)]
                   ++ [v0 (nth i vs noVec); v1 (nth i vs noVec); v2 (nth i vs noVec)]
                   ++ [v0 (nth (i + 1) vs noVec); v1 (nth (i + 1) vs noVec);
                       v2 (nth (i + 1) vs noVec)]).
  - cbn [app length]. rewrite length_flat_map_const with (n := 9%nat)
      by (intros; reflexivity).
    rewrite length_seq. lia.
  - intros acc i. reflexivity.
Qed.

(** X23. The plane data of the scene is absent exactly when the plane is
    hidden, the three indices are all zero, or the clipped polygon is empty.
    When it is present the polygon has [n >= 3] vertices, the edge points are
    these vertices followed by the first one again (so the drawn loop is
    closed: its first and its last point are equal), and the triangle fan has
    [n - 2] triangles of three points of three coordinates. *)
Theorem planeData_well_formed :
  forall (structure : Structure) (latticeConstant : option num) (show : bool)
         (h k l offset bounds : num),
    let r := computePlane h k l (vectors structure)
                          (orDefaultA latticeConstant structure) in
    let vs := vertices (clipPlaneToBox (planeNormal r) (offset * dSpacing r)%num
                                       bounds) in
    match planeData structure latticeConstant show h k l offset bounds with
    | None => show = false \/ (h = Fin 0 /\ k = Fin 0 /\ l = Fin 0) \/ vs = []
    | Some pd =>
        show = true
        /\ ~ (h = Fin 0 /\ k = Fin 0 /\ l = Fin 0)
        /\ (3 <= length vs)%nat
        /\ edgePoints pd = vs ++ [nth 0 vs noVec]
        /\ nth 0 (edgePoints pd) noVec = last (edgePoints pd) noVec
        /\ length (fillPositions pd) = (9 * (length vs - 2))%nat
    end.
Proof.
  intros s lc show h k l off b r vs. unfold planeData.
  destruct show; cbn [negb orb]; [|now left].
  destruct (isZero h && isZero k && isZero l) eqn:Ez.
  - right; left. apply andb_prop in Ez as [Ez El].
    apply andb_prop in Ez as [Eh Ek].
    now rewrite (isZero_true _ Eh), (isZero_true _ Ek), (isZero_true _ El).
  - fold r. fold vs.
    destruct (clipPlaneToBox_shape_aux (planeNormal r) (off * dSpacing r)%num b)
      as [Eloop Hshape].
    fold vs in Hshape.
    destruct (Nat.ltb_spec (length vs) 3) as [Hlt | Hge].
    + right; right. destruct Hshape as [E | Hge]; [exact E | lia].
    + cbn [edgePoints fillPositions]. rewrite Eloop. fold vs.
      split; [reflexivity|]. split.
      { intros (Eh & Ek & El). subst h k l. cbn [isZero] in Ez.
        rewrite Reqb_true in Ez by reflexivity. discriminate Ez. }
      split; [exact Hge|]. unfold closeLoop.
      split; [reflexivity|]. split.
      * rewrite last_last. apply app_nth1. lia.
      * apply fanPositions_length.
Qed.

(** * Properties of the binary64 kernel *)

(** ** Binary64 arithmetic *)

Lemma ofZ_0 : ofZ 0 = S754_zero false.
Proof. reflexivity. Qed.

Lemma ofZ_1 : ofZ 1 = S754_finite false 4503599627370496 (-52).
Proof. reflexivity. Qed.


Lemma digits_shift52 (m : positive) :
  (Zpos (digits2_pos (4503599627370496 * m)) = Zpos (digits2_pos m) + 52)%Z.
Proof. cbn [Pos.mul digits2_pos]. rewrite !Pos2Z.inj_succ. lia. Qed.

(** Multiplying the mantissa by [2^52] and rounding gives the mantissa
    back. *)
Lemma round_shift52 (s : bool) (m : positive) (e : Z) :
  valid (S754_finite s m e) ->
  binary_round_aux 53 1024 s (Zpos (4503599627370496 * m)) (e + -52) loc_Exact
  = S754_finite s m e.
Proof.
  unfold valid. cbn [valid_binary]. unfold bounded, canonical_mantissa.
  intros H. apply andb_prop in H as [Hc He]. apply Z.eqb_eq in Hc.
  unfold binary_round_aux, shr_fexp.
  cbn [Zdigits2]. rewrite digits_shift52.
  replace (Z.pos (digits2_pos m) + 52 + (e + -52))%Z
    with (Z.pos (digits2_pos m) + e)%Z by lia.
  rewrite Hc.
  replace (e - (e + -52))%Z with 52%Z by lia.
  cbn [Pos.mul shr shr_record_of_loc].
  cbn [iter_pos shr_1 orb].
  cbn [shr_m loc_of_shr_record round_nearest_even Zdigits2].
  replace (e + -52 + 52)%Z with e by lia.
  rewrite Hc, Z.sub_diag. cbn [shr shr_m].
  change (1024 - 53)%Z with 971%Z in *. now rewrite He.
Qed.


Lemma fmul_one_l (x : f64) : valid x -> (ofZ 1 * x)%f64 = x.
Proof.
  intros H. rewrite ofZ_1.
  destruct x as [s|s| |s m e]; try (destruct s; reflexivity); try reflexivity.
  unfold fmul. cbn [SFmul xorb]. rewrite Z.add_comm.
  now apply round_shift52.
Qed.


Lemma fneg_involutive (x : f64) : fneg (fneg x) = x.
Proof. destruct x as [s|s| |s m e]; cbn; now rewrite ?negb_involutive. Qed.



(** *** Zeros and NaN *)

Lemma fmul_zero_r (x z : f64) : zero_or_nan z -> zero_or_nan (x * z)%f64.
Proof. destruct x, z; cbn; tauto. Qed.


Lemma fadd_zero_or_nan (a b : f64) :
  zero_or_nan a -> zero_or_nan b -> zero_or_nan (a + b)%f64.
Proof. destruct a as [[]| | |], b as [[]| | |]; cbn; tauto. Qed.

Lemma fsqrt_zero_or_nan (a : f64) : zero_or_nan a -> zero_or_nan (fsqrt a).
Proof. destruct a; cbn; tauto. Qed.




Lemma fsub_diag (x : f64) : zero_or_nan (x - x)%f64.
Proof.
  destruct x as [[]|[]| |s m e]; cbn; try tauto.
  rewrite Z.min_id, Z.sub_diag. exact I.
Qed.


(** *** Comparisons *)

Lemma SFcompare_antisym (x y : f64) (c : comparison) :
  SFcompare x y = Some c -> SFcompare y x = Some (CompOpp c).
Proof.
  destruct x as [sx|sx| |sx mx ex], y as [sy|sy| |sy my ey]; cbn;
    try discriminate;
    try (intros E; injection E as <-);
    try (destruct sx; reflexivity); try (destruct sy; reflexivity);
    try (destruct sx, sy; reflexivity).
  pose proof (Pos.compare_cont_antisym mx my Eq) as A. cbn [CompOpp] in A.
  destruct sx, sy; try reflexivity;
    rewrite (Z.compare_antisym ex ey);
    destruct (ex ?= ey)%Z; cbn [CompOpp]; try reflexivity;
    rewrite <- A; now rewrite ?CompOpp_involutive.
Qed.




(** ** Clipping: the structure of the loops *)







(** ** Clipping a plane perpendicular to an axis *)


















(** *** The empty polygon *)






(** ** computePlane: the identity lattice *)






Lemma computePlane_fields (h k l : f64) (vs : B64.lattice_vectors) (a : f64) :
  B64.dSpacing (B64.computePlane h k l vs a)
  = (if fgtb (B64.magnitude (B64.G (B64.computePlane h k l vs a))) (ofZ 0)
     then (ofZ 1 / B64.magnitude (B64.G (B64.computePlane h k l vs a)))%f64
     else S754_infinity false)
  /\ B64.planeNormal (B64.computePlane h k l vs a)
     = B64.normalize (B64.G (B64.computePlane h k l vs a)).
Proof. split; reflexivity. Qed.






(** ** computePlane: the zero indices *)

Lemma fgtb_zero_or_nan (m : f64) : zero_or_nan m -> fgtb m (ofZ 0) = false.
Proof. destruct m; cbn [zero_or_nan]; intros H; try contradiction; reflexivity. Qed.

(** X25. In binary64 the indices (0,0,0), with zeros of either sign, give
    the pair [dSpacing = Infinity], normal (0,0,0) for all lattice vectors
    and every lattice constant, degenerate, infinite or NaN included; each
    component of [G] is then a zero or NaN. *)
Theorem computePlane_zero_indices_always_sentinel :
  forall (sh sk sl : bool) (vectors : B64.lattice_vectors) (a : f64),
    let r := B64.computePlane (S754_zero sh) (S754_zero sk) (S754_zero sl)
                              vectors a in
    B64.dSpacing r = S754_infinity false
    /\ B64.planeNormal r = B64.V3 (ofZ 0) (ofZ 0) (ofZ 0)
    /\ zero_or_nan (B64.v0 (B64.G r)) /\ zero_or_nan (B64.v1 (B64.G r))
    /\ zero_or_nan (B64.v2 (B64.G r)).
Proof.
  intros sh sk sl vs a r.
  assert (HG : zero_or_nan (B64.v0 (B64.G r)) /\ zero_or_nan (B64.v1 (B64.G r))
               /\ zero_or_nan (B64.v2 (B64.G r))).
  { unfold r, B64.computePlane. cbn [B64.G].
    unfold B64.add, B64.scale at 1 2 3 4 5 6. cbn [B64.v0 B64.v1 B64.v2].
    repeat split;
      (apply fadd_zero_or_nan; [apply fadd_zero_or_nan|]);
      apply fmul_zero_r; exact I. }
  destruct HG as (H0 & H1 & H2).
  assert (Hm : zero_or_nan (B64.magnitude (B64.G r))).
  { unfold B64.magnitude.
    apply fsqrt_zero_or_nan, fadd_zero_or_nan; [apply fadd_zero_or_nan|];
      now apply fmul_zero_r. }
  destruct (computePlane_fields (S754_zero sh) (S754_zero sk) (S754_zero sl)
              vs a) as [Ed En].
  fold r in Ed, En. rewrite Ed, En. unfold B64.normalize.
  rewrite (fgtb_zero_or_nan _ Hm). repeat split; assumption.
Qed.

(** ** computePlane: a zero volume *)












(** ** generateBonds *)

Lemma bondsWithin_flat_b64 atoms m :
  B64.bondsWithin atoms m
  = flat_map (fun i =>
      flat_map (fun j =>
        if B64.bondTest (B64.posAt atoms i) (B64.posAt atoms j) m
        then [B64.MkBond (B64.posAt atoms i) (B64.posAt atoms j)] else [])
        (seq (i + 1) (length atoms - (i + 1))))
      (seq 0 (length atoms)).
Proof.
  unfold B64.bondsWithin.
  rewrite fold_left_push with
    (g := fun i =>
      flat_map (fun j =>
        if B64.bondTest (B64.posAt atoms i) (B64.posAt atoms j) m
        then [B64.MkBond (B64.posAt atoms i) (B64.posAt atoms j)] else [])
        (seq (i + 1) (length atoms - (i + 1)))); [reflexivity|].
  intros acc i. apply fold_left_push.
  intros acc' j. unfold B64.bondTest, B64.posAt.
  destruct (fleb _ m && fgtb _ (dec 1 2)); [reflexivity|].
  now rewrite app_nil_r.
Qed.

Lemma bondsWithin_In_b64 atoms m b :
  In b (B64.bondsWithin atoms m) <->
  exists i j, (i < j < length atoms)%nat
              /\ B64.bondTest (B64.posAt atoms i) (B64.posAt atoms j) m = true
              /\ b = B64.MkBond (B64.posAt atoms i) (B64.posAt atoms j).
Proof.
  rewrite bondsWithin_flat_b64, in_flat_map. split.
  - intros (i & Hi & Hb). apply in_flat_map in Hb as (j & Hj & Hb).
    apply in_seq in Hi, Hj. exists i, j.
    destruct (B64.bondTest _ _ m); [|destruct Hb].
    destruct Hb as [<- | []]. repeat split; lia.
  - intros (i & j & Hij & Ht & ->). exists i. split; [apply in_seq; lia|].
    apply in_flat_map. exists j. split; [apply in_seq; lia|].
    rewrite Ht. now left.
Qed.

(** The code's [dist] is the Euclidean distance of the specification. *)
Lemma distance_euclidean (p q : B64.vec3) : B64.distance p q = euclidean p q.
Proof. reflexivity. Qed.

Lemma binary_round_aux_opp (s : bool) (m e : Z) (l : location) :
  binary_round_aux 53 1024 (negb s) m e l
  = SFopp (binary_round_aux 53 1024 s m e l).
Proof.
  unfold binary_round_aux.
  destruct (shr_fexp 53 1024 m e l) as [mrs' e'].
  destruct (shr_fexp 53 1024 _ e' loc_Exact) as [mrs'' e''].
  destruct (shr_m mrs''); [reflexivity| |reflexivity].
  now destruct (e'' <=? 1024 - 53)%Z.
Qed.

Lemma binary_normalize_opp (v e : Z) :
  binary_normalize 53 1024 (- v) e false
  = match v with
    | Z0 => S754_zero false
    | _ => SFopp (binary_normalize 53 1024 v e false)
    end.
Proof.
  destruct v as [|m|m]; cbn [Z.opp binary_normalize]; [reflexivity| |];
    unfold binary_round;
    destruct (shl_align m e _) as [mz ez].
  - apply (binary_round_aux_opp false).
  - rewrite (binary_round_aux_opp false). symmetry. apply fneg_involutive.
Qed.

Lemma fmul_fneg_fneg (a : f64) : (fneg a * fneg a)%f64 = (a * a)%f64.
Proof. destruct a as [[]|[]| |[] m e]; reflexivity. Qed.

(** [(x - y)^2] and [(y - x)^2] are the same number. *)
Lemma fsub_square_sym (x y : f64) :
  ((x - y) * (x - y))%f64 = ((y - x) * (y - x))%f64.
Proof.
  destruct x as [[]|[]| |sx mx ex], y as [[]|[]| |sy my ey];
    try reflexivity;
    try (cbn [fsub SFsub negb]; unfold fsub; cbn [SFsub negb];
         destruct sx || destruct sy; reflexivity).
  unfold fsub. cbn [SFsub]. rewrite (Z.min_comm ey ex).
  set (ez := Z.min ex ey).
  set (a := cond_Zopp sx (Z.pos (fst (shl_align mx ex ez)))).
  set (b := cond_Zopp sy (Z.pos (fst (shl_align my ey ez)))).
  replace (b - a)%Z with (- (a - b))%Z by lia.
  rewrite binary_normalize_opp.
  destruct (a - b)%Z; [reflexivity| |]; apply eq_sym, fmul_fneg_fneg.
Qed.

Lemma distance_sym_b64 (p q : B64.vec3) : B64.distance p q = B64.distance q p.
Proof.
  unfold B64.distance.
  now rewrite (fsub_square_sym (B64.v0 p)), (fsub_square_sym (B64.v1 p)),
    (fsub_square_sym (B64.v2 p)).
Qed.

Lemma bondTest_sym_b64 p q m : B64.bondTest p q m = B64.bondTest q p m.
Proof. unfold B64.bondTest. now rewrite distance_sym_b64. Qed.

Lemma bondTest_spec_b64 p q m :
  B64.bondTest p q m = true <->
  fltb (dec 1 2) (euclidean p q) = true /\ fleb (euclidean p q) m = true.
Proof.
  unfold B64.bondTest, fgtb. rewrite distance_euclidean, andb_true_iff.
  unfold fltb. tauto.
Qed.

(** The distance of a position to itself is a zero or NaN, never above
    0.01. *)
Lemma bondTest_self_b64 p m : B64.bondTest p p m = false.
Proof.
  unfold B64.bondTest.
  assert (H : zero_or_nan (B64.distance p p)).
  { unfold B64.distance.
    apply fsqrt_zero_or_nan, fadd_zero_or_nan; [apply fadd_zero_or_nan|];
      apply fmul_zero_r, fsub_diag. }
  destruct (B64.distance p p) as [s| | |]; try contradiction;
    [|apply andb_false_r].
  replace (fgtb (S754_zero s) (dec 1 2)) with false
    by (vm_compute; reflexivity).
  apply andb_false_r.
Qed.

(** C4.  For every atom list and structure, and every two distinct indices
    [i], [j] of the list, [generateBonds] returns a bond joining atoms [i]
    and [j] exactly when their Euclidean distance [d], computed in binary64
    as [sqrt (dx^2 + dy^2 + dz^2)], satisfies [0.01 < d <= cutoff], the
    cutoff being the one of the structure's id ([a * sqrt 2 / 2 * 1.05] for
    'fcc'); so every returned bond is longer than 0.01 and joins two
    different positions. *)
Theorem generateBonds_distance_window :
  forall (atoms : list B64.Atom) (structure : B64.Structure)
         (latticeConstant : option f64) (i j : nat),
    i <> j -> (i < length atoms)%nat -> (j < length atoms)%nat ->
    let a := B64.orDefaultA latticeConstant structure in
    let cutoff := B64.maxBondLengthOf (B64.id structure) a in
    let p := B64.posAt atoms i in
    let q := B64.posAt atoms j in
    let dx := (B64.v0 p - B64.v0 q)%f64 in
    let dy := (B64.v1 p - B64.v1 q)%f64 in
    let dz := (B64.v2 p - B64.v2 q)%f64 in
    let d := fsqrt (dx * dx + dy * dy + dz * dz) in
    ((exists b, In b (B64.generateBonds atoms structure latticeConstant)
                /\ B64.connects b p q)
     <-> fltb (dec 1 2) d = true /\ fleb d cutoff = true)
    /\ (B64.id structure = "fcc"%string ->
        cutoff = (a * fsqrt (ofZ 2) / ofZ 2 * dec 105 2)%f64)
    /\ (forall b, In b (B64.generateBonds atoms structure latticeConstant) ->
                  B64.start b <> B64.end_ b
                  /\ fltb (dec 1 2) (euclidean (B64.start b) (B64.end_ b))
                     = true).
Proof.
  intros atoms s lc i j Hij Hi Hj a cutoff p q dx dy dz d.
  change d with (euclidean p q). clear d dz dy dx.
  subst p q cutoff a. unfold B64.generateBonds.
  split; [|split].
  - rewrite <- bondTest_spec_b64. split.
    + intros (b & Hb & Hc). apply bondsWithin_In_b64 in Hb
        as (i' & j' & _ & Ht & ->).
      destruct Hc as [[E1 E2] | [E1 E2]]; cbn [B64.start B64.end_] in E1, E2;
        rewrite E1, E2 in Ht; [exact Ht | now rewrite bondTest_sym_b64].
    + intros Ht. destruct (Nat.lt_ge_cases i j) as [Hlt | Hge].
      * exists (B64.MkBond (B64.posAt atoms i) (B64.posAt atoms j)). split.
        -- apply bondsWithin_In_b64. exists i, j. repeat split; auto.
        -- left. split; reflexivity.
      * exists (B64.MkBond (B64.posAt atoms j) (B64.posAt atoms i)). split.
        -- apply bondsWithin_In_b64. exists j, i.
           rewrite bondTest_sym_b64. repeat split; auto; lia.
        -- right. split; reflexivity.
  - intros E. rewrite E. reflexivity.
  - intros b Hb. apply bondsWithin_In_b64 in Hb as (i' & j' & _ & Ht & ->).
    cbn [B64.start B64.end_]. split.
    + intros E. rewrite E, bondTest_self_b64 in Ht. discriminate.
    + now apply bondTest_spec_b64 in Ht.
Qed.

Lemma generateBonds_distance_window_witness :
  euclidean (B64.posAt atoms13 0) (B64.posAt atoms13 1) = ofZ 13
  /\ (exists b, In b (B64.generateBonds atoms13 fcc64 (Some (ofZ 20)))
                /\ B64.connects b (B64.posAt atoms13 0) (B64.posAt atoms13 1))
  /\ ~ (exists b, In b (B64.generateBonds atoms13 fcc64 None)
                  /\ B64.connects b (B64.posAt atoms13 0)
                                    (B64.posAt atoms13 1)).
Proof.
  assert (H0 : 0%nat <> 1%nat) by discriminate.
  assert (H1 : (0 < length atoms13)%nat) by (cbn; lia).
  assert (H2 : (1 < length atoms13)%nat) by (cbn; lia).
  split; [vm_compute; reflexivity|]. split.
  - apply (proj1 (generateBonds_distance_window
                    atoms13 fcc64 (Some (ofZ 20)) 0%nat 1%nat H0 H1 H2)).
    split; vm_compute; reflexivity.
  - intros H.
    apply (proj1 (generateBonds_distance_window
                    atoms13 fcc64 None 0%nat 1%nat H0 H1 H2)) in H.
    destruct H as [_ H]. vm_compute in H. discriminate H.
Defined.

(** ** The bounding box of the scene *)

Ltac rank_case :=
  split;
  [ intros Hc; first [discriminate Hc | lia]
  | intros Hr; first [reflexivity | exfalso; lia] ].

Lemma fleb_rank (x y : f64) :
  fnonneg x -> fnonneg y -> (fleb x y = true <-> rank_le (rank x) (rank y)).
Proof.
  destruct x as [[]|[]| |[] mx ex], y as [[]|[]| |[] my ey];
    cbn [fnonneg]; try contradiction; intros _ _;
    unfold fleb, SFleb; cbn [SFcompare rank rank_le];
    try rank_case.
  destruct (Z.compare_spec ex ey) as [-> | H | H]; try rank_case.
  rewrite Pos.compare_cont_spec. cbn [Pos.switch_Eq].
  destruct (Pos.compare_spec mx my) as [-> | H | H]; rank_case.
Qed.

Lemma fnonneg_fabs (x : f64) : x <> S754_nan -> fnonneg (fabs x).
Proof. destruct x as [[]|[]| |[] m e]; cbn; congruence || tauto. Qed.

Lemma fmax_fnonneg (a b : f64) :
  fnonneg a -> fnonneg b ->
  fnonneg (fmax a b) /\ (fmax a b = a \/ fmax a b = b)
  /\ fleb a (fmax a b) = true /\ fleb b (fmax a b) = true.
Proof.
  intros Ha Hb.
  assert (E : fmax a b = if fltb a b then b else a).
  { destruct a as [[]|[]| |[] ma ea], b as [[]|[]| |[] mb eb];
      cbn [fnonneg] in *; try contradiction; reflexivity. }
  rewrite E.
  pose proof (fleb_rank a b Ha Hb) as Hab.
  pose proof (fleb_rank b a Hb Ha) as Hba.
  pose proof (fleb_rank a a Ha Ha) as Haa.
  pose proof (fleb_rank b b Hb Hb) as Hbb.
  assert (Hlt : fltb a b = true -> fleb a b = true).
  { unfold fltb, fleb, SFltb, SFleb. now destruct (SFcompare a b) as [[]|]. }
  assert (Hge : fltb a b = false -> fleb b a = true).
  { intros H. apply Hba.
    destruct (fleb a b) eqn:Hle.
    - assert (Hr := proj1 Hab eq_refl).
      assert (Heq : SFcompare a b = Some Eq).
      { unfold fltb, fleb, SFltb, SFleb in H, Hle.
        now destruct (SFcompare a b) as [[]|]. }
      apply SFcompare_antisym in Heq. cbn [CompOpp] in Heq.
      apply Hba. unfold fleb, SFleb. now rewrite Heq.
    - destruct (rank a) as [[c e] m], (rank b) as [[c' e'] m'].
      cbn [rank_le] in *.
      assert (Hn : ~ (c < c' \/ c = c' /\ (e < e' \/ e = e' /\ m <= m'))%Z)
        by (intros Hr; apply Hab in Hr; discriminate).
      lia. }
  destruct (fltb a b) eqn:Hc.
  - repeat split; auto. apply Hbb.
    destruct (rank b) as [[c e] m]. cbn [rank_le]. lia.
  - repeat split; auto. apply Haa.
    destruct (rank a) as [[c e] m]. cbn [rank_le]. lia.
Qed.

Lemma fleb_trans (x y z : f64) :
  fnonneg x -> fnonneg y -> fnonneg z ->
  fleb x y = true -> fleb y z = true -> fleb x z = true.
Proof.
  intros Hx Hy Hz. rewrite !fleb_rank by assumption.
  destruct (rank x) as [[c e] m], (rank y) as [[c' e'] m'],
    (rank z) as [[c'' e''] m'']. cbn [rank_le]. lia.
Qed.

(** The running maximum over a list of non-negative numbers. *)
Lemma fold_fmax (l : list f64) :
  Forall fnonneg l ->
  forall m : f64,
    fnonneg m ->
    let M := fold_left fmax l m in
    fnonneg M /\ fleb m M = true
    /\ Forall (fun x => fleb x M = true) l
    /\ (M = m \/ In M l).
Proof.
  induction 1 as [|x l Hx Hl IH]; intros m Hm; cbn [fold_left].
  - repeat split; auto.
    apply fleb_rank; auto. destruct (rank m) as [[c e] k]. cbn [rank_le]. lia.
  - destruct (fmax_fnonneg m x Hm Hx) as (Hn & Hor & Hle1 & Hle2).
    destruct (IH (fmax m x) Hn) as (HM & HmM & Hall & HIn).
    cbn zeta in *. repeat split.
    + exact HM.
    + now apply (fleb_trans m (fmax m x)).
    + constructor; [now apply (fleb_trans x (fmax m x)) | exact Hall].
    + destruct HIn as [-> | HIn]; [|right; now right].
      destruct Hor as [-> | ->]; [now left | right; now left].
Qed.

Lemma maxDist_absCoords (atoms : list B64.Atom) (m : f64) :
  fold_left (fun maxDist atom =>
     fold_left (fun maxDist i =>
                  fmax maxDist (fabs (B64.coord i (B64.position atom))))
               (seq 0 3) maxDist)
    atoms m
  = fold_left fmax (absCoords atoms) m.
Proof.
  revert m. induction atoms as [|atom atoms IH]; intros m; [reflexivity|].
  cbn [fold_left absCoords flat_map]. fold (absCoords atoms).
  rewrite fold_left_app, IH. reflexivity.
Qed.

(** X21. The half-extent computed for the scene is 5 for an empty lattice.
    For a non-empty lattice none of whose coordinates is NaN it is
    [maxDist + a * 0.3], where [maxDist] is the largest absolute value of a
    coordinate: it is at least the absolute value of every coordinate of
    every atom, and it is one of them or 0. *)
Theorem latticeBounds_contains_atoms :
  forall (a : f64),
    B64.latticeBounds [] a = ofZ 5
    /\ (forall atoms : list B64.Atom,
           atoms <> [] ->
           Forall (fun atom =>
                     forall i, B64.coord i (B64.position atom) <> S754_nan)
                  atoms ->
           exists maxDist : f64,
             B64.latticeBounds atoms a = (maxDist + a * dec 3 1)%f64
             /\ Forall (fun atom =>
                          forall i,
                            fleb (fabs (B64.coord i (B64.position atom)))
                                 maxDist = true) atoms
             /\ (maxDist = ofZ 0 \/ In maxDist (absCoords atoms))).
Proof.
  intros a. split; [reflexivity|].
  intros atoms Hne Hnan. unfold B64.latticeBounds.
  destruct atoms as [|atom0 atoms0] eqn:E; [congruence|].
  rewrite <- E in *. assert (Hl : (length atoms =? 0)%nat = false)
    by (subst atoms; reflexivity).
  rewrite Hl, maxDist_absCoords.
  assert (Habs : Forall fnonneg (absCoords atoms)).
  { unfold absCoords. apply Forall_forall. intros x Hx.
    apply in_flat_map in Hx as (atom & Ha & Hx).
    apply in_map_iff in Hx as (i & <- & _).
    apply fnonneg_fabs. rewrite Forall_forall in Hnan. now apply Hnan. }
  destruct (fold_fmax _ Habs (ofZ 0) I) as (_ & _ & Hall & HIn).
  cbn zeta in *.
  exists (fold_left fmax (absCoords atoms) (ofZ 0)).
  split; [reflexivity|]. split; [|exact HIn].
  apply Forall_forall. intros atom Ha i.
  rewrite Forall_forall in Hall. apply Hall.
  unfold absCoords. apply in_flat_map. exists atom. split; [exact Ha|].
  destruct i as [|[|i]].
  - cbn [seq map In]. tauto.
  - cbn [seq map In]. tauto.
  - cbn [seq map In]. right; right; left. reflexivity.
Qed.

Lemma latticeBounds_contains_atoms_witness :
  exists maxDist : f64,
    B64.latticeBounds atoms13 (ofZ 2) = (maxDist + ofZ 2 * dec 3 1)%f64
    /\ Forall (fun atom =>
                 forall i,
                   fleb (fabs (B64.coord i (B64.position atom))) maxDist
                   = true) atoms13
    /\ (maxDist = ofZ 0 \/ In maxDist (absCoords atoms13)).
Proof.
  apply (proj2 (latticeBounds_contains_atoms (ofZ 2))).
  - discriminate.
  - unfold atoms13. repeat apply Forall_cons; try apply Forall_nil;
      intros [|[|i]]; discriminate.
Defined.

(** ** The unit cell and its wireframe *)

Lemma fadd_comm (x y : f64) : (x + y)%f64 = (y + x)%f64.
Proof.
  destruct x as [sx|sx| |sx mx ex], y as [sy|sy| |sy my ey]; try reflexivity.
  - destruct sx, sy; reflexivity.
  - destruct sx, sy; reflexivity.
  - unfold fadd, SFadd. now rewrite Z.min_comm, Z.add_comm.
Qed.

Lemma same_number_refl (x : f64) : same_number x x.
Proof. now left. Qed.

Lemma same_number_zeros (x y : f64) : fzero x -> fzero y -> same_number x y.
Proof. intros Hx Hy. now right. Qed.

Lemma same_number_add (x x' y y' : f64) :
  same_number x x' -> same_number y y' -> same_number (x + y) (x' + y')%f64.
Proof.
  intros [-> | [Hx Hx']] [-> | [Hy Hy']].
  - now left.
  - destruct y as [[]| | |], y' as [[]| | |], x' as [[]|[]| |sx mx ex];
      try contradiction; cbn; unfold same_number; cbn; tauto.
  - destruct x as [[]| | |], x' as [[]| | |], y' as [[]|[]| |sy my ey];
      try contradiction; cbn; unfold same_number; cbn; tauto.
  - destruct x as [[]| | |], x' as [[]| | |], y as [[]| | |], y' as [[]| | |];
      try contradiction; cbn; unfold same_number; cbn; tauto.
Qed.

Lemma same_number_sub (x x' o : f64) :
  same_number x x' -> same_number (x - o) (x' - o)%f64.
Proof.
  intros [-> | [Hx Hx']].
  - now left.
  - destruct x as [[]| | |], x' as [[]| | |], o as [[]|[]| |so mo eo];
      try contradiction; cbn; unfold same_number; cbn; tauto.
Qed.

Lemma same_number_add_zero_r (x y z : f64) :
  fzero z -> same_number x y -> same_number x (y + z)%f64.
Proof.
  intros Hz [-> | [Hx Hy]].
  - destruct z as [[]| | |], y as [[]|[]| |sy my ey];
      try contradiction; cbn; unfold same_number; cbn; tauto.
  - destruct x as [[]| | |], y as [[]| | |], z as [[]| | |];
      try contradiction; cbn; unfold same_number; cbn; tauto.
Qed.

Lemma same_number_add_zero_l (x y z : f64) :
  fzero z -> same_number x y -> same_number x (z + y)%f64.
Proof. intros Hz H. rewrite fadd_comm. now apply same_number_add_zero_r. Qed.

(** The term of a cell index 0: a zero. *)
Lemma cell_term_0 (v a : f64) :
  regular v -> regular a -> fzero ((ofZ 0 + B64.ofNat 0) * v * a)%f64.
Proof.
  intros [_ Hv] [_ Ha].
  destruct v as [[]| | |[]], a as [[]| | |[]]; try contradiction; exact I.
Qed.

(** The term of a cell index 1: the scaled component. *)
Lemma cell_term_1 (v a : f64) :
  regular v -> ((ofZ 0 + B64.ofNat 1) * v * a)%f64 = (v * a)%f64.
Proof.
  intros [Hv _].
  change (ofZ 0 + B64.ofNat 1)%f64 with (ofZ 1). now rewrite fmul_one_l.
Qed.

Lemma wireframeOffset_orDefaultA_b64 s lc :
  B64.wireframeOffset s lc = (B64.orDefaultA lc s / ofZ 2)%f64.
Proof.
  unfold B64.wireframeOffset, B64.orDefaultA.
  destruct lc as [x|]; [destruct (ftruthy x)|]; reflexivity.
Qed.

Lemma latticeOffset_2 (a : f64) :
  regular a -> B64.latticeOffset 2 a = (a / ofZ 2)%f64.
Proof.
  intros [Ha _]. unfold B64.latticeOffset.
  change (B64.ofNat 2 - ofZ 1)%f64 with (ofZ 1). now rewrite fmul_one_l.
Qed.

Lemma latticeOffset_1 (a : f64) : regular a -> fzero (B64.latticeOffset 1 a).
Proof.
  intros [_ Ha]. unfold B64.latticeOffset.
  change (B64.ofNat 1 - ofZ 1)%f64 with (S754_zero false).
  destruct a as [[]| | |[]]; try contradiction; exact I.
Qed.

Lemma fsub_zeros (x y : f64) : fzero x -> fzero y -> fzero (x - y)%f64.
Proof. destruct x as [[]| | |], y as [[]| | |]; cbn; tauto. Qed.

Lemma fadd_zeros (x y : f64) : fzero x -> fzero y -> fzero (x + y)%f64.
Proof. destruct x as [[]| | |], y as [[]| | |]; cbn; tauto. Qed.

Lemma zero_minus_not_zero (h z : f64) :
  ~ fzero h -> fzero z -> ~ same_number (ofZ 0 - h)%f64 z.
Proof.
  intros Hh Hz [E | [F _]].
  - destruct h as [s|s| |s m e], z as [t| | |]; try contradiction;
      try discriminate E; try (apply Hh; exact I).
  - destruct h as [s|s| |s m e]; try contradiction; try (apply Hh; exact I).
Qed.

Ltac zeros := repeat apply fadd_zeros; first [assumption | exact I].

Ltac same_numbers :=
  first [ apply same_number_refl
        | solve [apply same_number_zeros; zeros]
        | solve [apply same_number_add_zero_r; [zeros | same_numbers]]
        | solve [apply same_number_add_zero_l; [zeros | same_numbers]]
        | solve [apply same_number_add; same_numbers] ].

(** One coordinate of the eight corners against the eight cell positions. *)
Lemma corner_coordinate (x y z a o : f64) (n i j k : nat) :
  regular x -> regular y -> regular z -> regular a ->
  nth_error cornerCells n = Some (i, j, k) ->
  same_number
    (nth n [ofZ 0; x * a; y * a; z * a; x * a + y * a; x * a + z * a;
            y * a + z * a; x * a + y * a + z * a] S754_nan - o)%f64
    ((ofZ 0 + B64.ofNat i) * x * a + (ofZ 0 + B64.ofNat j) * y * a
     + (ofZ 0 + B64.ofNat k) * z * a - o)%f64.
Proof.
  intros Hx Hy Hz Ha Hn.
  pose proof (cell_term_0 x a Hx Ha) as X0.
  pose proof (cell_term_0 y a Hy Ha) as Y0.
  pose proof (cell_term_0 z a Hz Ha) as Z0.
  pose proof (cell_term_1 x a Hx) as X1.
  pose proof (cell_term_1 y a Hy) as Y1.
  pose proof (cell_term_1 z a Hz) as Z1.
  destruct n as [|[|[|[|[|[|[|[|n]]]]]]]];
    [..| destruct n; discriminate Hn];
    injection Hn as <- <- <-;
    cbn [nth]; rewrite ?X1, ?Y1, ?Z1; apply same_number_sub;
    revert X0 Y0 Z0;
    generalize ((ofZ 0 + B64.ofNat 0) * x * a)%f64
               ((ofZ 0 + B64.ofNat 0) * y * a)%f64
               ((ofZ 0 + B64.ofNat 0) * z * a)%f64;
    intros zx zy zz X0 Y0 Z0; same_numbers.
Qed.

(** X19.  [generateUnitCell] returns 8 corners and 12 edges; every edge
    [[i, j]] has [i < j < 8]; for each of the first ten edges corner [j] is
    corner [i] plus the scaled lattice vector the edge runs along (as
    numbers: component by component the same, up to the sign of a zero);
    for the last two edges the corner [7] adds the three vectors in another
    order, and in the cell with edges 0.1, 0.2, 0.3 along [x] the sum along
    edge [[6, 7]] differs from the corner in the last place. *)
Theorem generateUnitCell_edges_are_lattice_vectors :
  (forall (structure : B64.Structure) (latticeConstant : option f64),
      let cell := B64.generateUnitCell structure latticeConstant in
      length (B64.corners cell) = 8%nat
      /\ length (B64.edges cell) = 12%nat
      /\ Forall (fun e => (fst e < snd e < 8)%nat) (B64.edges cell)
      /\ (forall n i j : nat,
             (n < 10)%nat ->
             nth_error (B64.edges cell) n = Some (i, j) ->
             same_point
               (nth j (B64.corners cell) B64.noVec)
               (B64.add (nth i (B64.corners cell) B64.noVec)
                        (scaledVector structure latticeConstant
                                      (nth n edgeVectors 0%nat)))))
  /\ (let cell := B64.generateUnitCell skewCell None in
      nth_error (B64.edges cell) 11 = Some (6, 7)%nat
      /\ nth 11 edgeVectors 0%nat = 0%nat
      /\ B64.v0 (nth 7 (B64.corners cell) B64.noVec)
         = S754_finite false 5404319552844596 (-53)
      /\ B64.v0 (B64.add (nth 6 (B64.corners cell) B64.noVec)
                         (scaledVector skewCell None 0))
         = S754_finite false 5404319552844595 (-53)).
Proof.
  split.
  - intros structure latticeConstant cell. subst cell.
    unfold B64.generateUnitCell, scaledVector.
    set (a := B64.orDefaultA latticeConstant structure).
    destruct (B64.vectors structure) as [[x0 x1 x2] [y0 y1 y2] [z0 z1 z2]].
    cbn [B64.corners B64.edges B64.v0 B64.v1 B64.v2 B64.a1v B64.a2v B64.a3v].
    split; [reflexivity|]. split; [reflexivity|]. split.
    + repeat apply Forall_cons; try apply Forall_nil; cbn; lia.
    + intros n i j Hn E.
      destruct n as [|[|[|[|[|[|[|[|[|[|n]]]]]]]]]]; [..| lia];
        injection E as <- <-;
        cbn [nth edgeVectors B64.add B64.v0 B64.v1 B64.v2];
        unfold same_point; cbn [B64.v0 B64.v1 B64.v2];
        repeat split;
        first [ apply same_number_refl
              | rewrite fadd_comm; apply same_number_refl
              | apply same_number_add_zero_l;
                [exact I | apply same_number_refl] ].
  - vm_compute. repeat split.
Qed.

Lemma generateUnitCell_edges_are_lattice_vectors_witness :
  same_point
    (nth 4 (B64.corners (B64.generateUnitCell fcc64 None)) B64.noVec)
    (B64.add (nth 2 (B64.corners (B64.generateUnitCell fcc64 None)) B64.noVec)
             (scaledVector fcc64 None 0)).
Proof.
  refine (proj2 (proj2 (proj2
            (proj1 generateUnitCell_edges_are_lattice_vectors fcc64 None)))
          5%nat 2%nat 4%nat _ _).
  - lia.
  - reflexivity.
Defined.

(** X20.  For a lattice constant and lattice vectors that are finite
    binary64 numbers, the corners drawn by [UnitCellWireframe]
    (corner minus [a / 2] in each coordinate) are, as numbers, the positions
    the loop of [generateLattice] computes at [repeat = 2] for the basis
    entry (0,0,0) in the eight cells.  At [repeat = 1] the position of that
    entry in the only cell is the origin, and the corner drawn for the
    origin is [0 - a / 2] in each coordinate, which is another number
    unless [a / 2] is a zero. *)
Theorem wireframe_aligned_with_repeat_2 (structure : B64.Structure)
    (latticeConstant : option f64) :
  let a := B64.orDefaultA latticeConstant structure in
  let vs := B64.vectors structure in
  let origin := B64.V3 (ofZ 0) (ofZ 0) (ofZ 0) in
  regular a ->
  regular_vec (B64.a1v vs) -> regular_vec (B64.a2v vs) ->
  regular_vec (B64.a3v vs) ->
  (forall n i j k : nat,
      nth_error cornerCells n = Some (i, j, k) ->
      same_point (B64.wireframeCorner structure latticeConstant n)
                 (B64.cellPosition vs a (B64.latticeOffset 2 a) i j k origin))
  /\ (forall ax : nat,
         fzero (B64.coord ax
                  (B64.cellPosition vs a (B64.latticeOffset 1 a) 0 0 0 origin))
         /\ B64.coord ax (B64.wireframeCorner structure latticeConstant 0)
            = (ofZ 0 - a / ofZ 2)%f64
         /\ (~ fzero (a / ofZ 2)%f64 ->
             ~ same_number
                 (B64.coord ax
                    (B64.wireframeCorner structure latticeConstant 0))
                 (B64.coord ax
                    (B64.cellPosition vs a (B64.latticeOffset 1 a)
                                      0 0 0 origin)))).
Proof.
  intros a vs origin Ha H1 H2 H3.
  assert (P1 : forall ax : nat,
             fzero (B64.coord ax
                      (B64.cellPosition vs a (B64.latticeOffset 1 a)
                                        0 0 0 origin))).
  { intros ax. pose proof (latticeOffset_1 a Ha) as Ho.
    destruct H1 as (A0 & A1 & A2), H2 as (B0 & B1 & B2), H3 as (C0 & C1 & C2).
    destruct ax as [|[|ax]];
      cbn [B64.coord B64.cellPosition B64.v0 B64.v1 B64.v2 origin];
      apply fsub_zeros; try exact Ho;
      repeat apply fadd_zeros; now apply cell_term_0. }
  assert (P2 : forall ax : nat,
             B64.coord ax (B64.wireframeCorner structure latticeConstant 0)
             = (ofZ 0 - a / ofZ 2)%f64).
  { intros ax. unfold B64.wireframeCorner.
    rewrite wireframeOffset_orDefaultA_b64. fold a.
    destruct ax as [|[|ax]]; reflexivity. }
  split.
  - intros n i j k Hn. clear P1 P2.
    unfold B64.wireframeCorner. rewrite wireframeOffset_orDefaultA_b64.
    rewrite latticeOffset_2 by exact Ha.
    unfold B64.generateUnitCell, B64.cellPosition, same_point.
    fold a. subst vs origin.
    destruct (B64.vectors structure) as [[x0 x1 x2] [y0 y1 y2] [z0 z1 z2]].
    destruct H1 as (A0 & A1 & A2), H2 as (B0 & B1 & B2), H3 as (C0 & C1 & C2).
    cbn [B64.corners B64.v0 B64.v1 B64.v2 B64.a1v B64.a2v B64.a3v] in *.
    pose proof (corner_coordinate x0 y0 z0 a (a / ofZ 2)%f64 n i j k
                  A0 B0 C0 Ha Hn) as Q0.
    pose proof (corner_coordinate x1 y1 z1 a (a / ofZ 2)%f64 n i j k
                  A1 B1 C1 Ha Hn) as Q1.
    pose proof (corner_coordinate x2 y2 z2 a (a / ofZ 2)%f64 n i j k
                  A2 B2 C2 Ha Hn) as Q2.
    destruct n as [|[|[|[|[|[|[|[|n]]]]]]]];
      [..| destruct n; discriminate Hn];
      cbn [nth] in *; repeat split; assumption.
  - intros ax. split; [apply P1|]. split; [apply P2|].
    intros Hh. rewrite P2. apply zero_minus_not_zero; [exact Hh | apply P1].
Qed.

Lemma wireframe_aligned_with_repeat_2_witness :
  same_point (B64.wireframeCorner fcc64 None 7)
             (B64.cellPosition B64.cubicVectors (dec 361 2)
                (B64.latticeOffset 2 (dec 361 2)) 1 1 1
                (B64.V3 (ofZ 0) (ofZ 0) (ofZ 0))).
Proof.
  assert (R0 : regular (ofZ 0)) by (split; [reflexivity | exact I]).
  assert (R1 : regular (ofZ 1)) by (split; [reflexivity | exact I]).
  assert (Ra : regular (dec 361 2)) by (split; vm_compute; auto).
  refine (proj1 (wireframe_aligned_with_repeat_2 fcc64 None Ra _ _ _)
                7%nat 1%nat 1%nat 1%nat _).
  - repeat split; assumption.
  - repeat split; assumption.
  - repeat split; assumption.
  - reflexivity.
Defined.
